(** * Personal-Finance: a shallow embedding of [main.py]

    The development follows the script top to bottom: Python strings and
    the two [str] methods the script calls, the category dictionary kept
    in the Streamlit session, the [categories.json] file, the categorizer,
    the loader with the clean-up of its amount columns, the two store
    mutations, the debit and credit views with the "Apply Changes" loop,
    and the per-category summary. *)

From Stdlib Require Import String Ascii List Bool Arith NArith ZArith QArith.
From Stdlib Require Import Lia Lqa Permutation Sorted OrderedTypeEx DecimalString.
From Stdlib Require Import DecimalPos DecimalN.
Import ListNotations.

Close Scope Q_scope.
Open Scope string_scope.
Open Scope list_scope.

(** ** Python [str]

    A [str] is modelled by a Rocq [string]; each character stands for the
    code point of the same number, so the model covers the strings over
    U+0000..U+00FF.  [lower] and [strip] are the Unicode ones restricted to
    that range. *)
Module PyStr.

Definition ord (c : ascii) : N := N_of_ascii c.

Definition between (lo hi n : N) : bool := ((lo <=? n) && (n <=? hi))%N.

(** [str.isspace] on one character: TAB..CR, FS..US, SPACE, NEL, NBSP. *)
Definition isspace (c : ascii) : bool :=
  between 9 13 (ord c) || between 28 32 (ord c)
  || (ord c =? 133)%N || (ord c =? 160)%N.

(** Upper-case letters of the range: A..Z and the accented capitals
    U+00C0..U+00DE without the multiplication sign U+00D7. *)
Definition isupper (c : ascii) : bool :=
  between 65 90 (ord c)
  || (between 192 222 (ord c) && negb (ord c =? 215)%N).

Definition lower_char (c : ascii) : ascii :=
  if isupper c then ascii_of_N (ord c + 32) else c.

(** [s.lower()] *)
Fixpoint lower (s : string) : string :=
  match s with
  | EmptyString => EmptyString
  | String c r => String (lower_char c) (lower r)
  end.

Fixpoint lstrip (s : string) : string :=
  match s with
  | EmptyString => EmptyString
  | String c r => if isspace c then lstrip r else s
  end.

Fixpoint rstrip (s : string) : string :=
  match s with
  | EmptyString => EmptyString
  | String c r =>
      match rstrip r with
      | EmptyString => if isspace c then EmptyString else String c EmptyString
      | r' => String c r'
      end
  end.

(** [s.strip()] *)
Definition strip (s : string) : string := rstrip (lstrip s).

(** [s.replace(old, "")] for a one-character [old]. *)
Fixpoint remove_char (old : ascii) (s : string) : string :=
  match s with
  | EmptyString => EmptyString
  | String c r =>
      if Ascii.eqb c old then remove_char old r
      else String c (remove_char old r)
  end.

(** [x in xs] for a list of strings. *)
Definition contains (xs : list string) (x : string) : bool :=
  existsb (String.eqb x) xs.

(** [not xs] for a list. *)
Definition is_empty {A} (xs : list A) : bool :=
  match xs with [] => true | _ => false end.

(** Truthiness of a string: non-empty. *)
Definition truthy (s : string) : bool :=
  match s with EmptyString => false | _ => true end.

End PyStr.

(** ** The category dictionary

    [st.session_state.categories] is a Python [dict] from category name to
    a list of keywords.  Its iteration order is its insertion order, which
    [categorize_transactions] observes, so it is an association list. *)
Definition dict := list (string * list string).

Fixpoint dict_get (d : dict) (k : string) : option (list string) :=
  match d with
  | [] => None
  | (k', v) :: rest => if String.eqb k k' then Some v else dict_get rest k
  end.

(** [k in d] *)
Definition dict_mem (d : dict) (k : string) : bool :=
  match dict_get d k with Some _ => true | None => false end.

(** [d[k] = v]: an existing key keeps its position, a new one goes last. *)
Fixpoint dict_set (d : dict) (k : string) (v : list string) : dict :=
  match d with
  | [] => [(k, v)]
  | (k', v') :: rest =>
      if String.eqb k k' then (k', v) :: rest
      else (k', v') :: dict_set rest k v
  end.

Definition keys (d : dict) : list string := map fst d.

(** A Python dict holds each key once. *)
Definition well_formed (d : dict) : Prop := NoDup (keys d).

(** ** Transactions *)

(** A [float64] cell.  A finite value is kept as the rational it denotes;
    the rounding of binary64 is not part of the model. *)
Inductive pyfloat : Type :=
| Finite (q : Q)
| Inf (negative : bool)
| NaN.

Record row : Type := mkRow {
  Date : string;
  Narration : string;
  Withdrawal_Amt : pyfloat;
  Deposit_Amt : pyfloat;
  Category : string
}.

Definition set_Category (r : row) (c : string) : row :=
  mkRow (Date r) (Narration r) (Withdrawal_Amt r) (Deposit_Amt r) c.

(** A data frame with the default [RangeIndex]: row [i] has label [i]. *)
Definition frame := list row.

(** [df.at[idx, "Category"] = c] *)
Fixpoint at_set_Category (df : frame) (idx : nat) (c : string) : frame :=
  match df, idx with
  | [], _ => []
  | r :: rest, O => set_Category r c :: rest
  | r :: rest, S i => r :: at_set_Category rest i c
  end.

(** [df.iterrows()]: the (label, row) pairs of the frame as it is when the
    loop starts. *)
Fixpoint iterrows_from (i : nat) (df : frame) : list (nat * row) :=
  match df with
  | [] => []
  | r :: rest => (i, r) :: iterrows_from (S i) rest
  end.

Definition iterrows (df : frame) : list (nat * row) := iterrows_from 0 df.

(** ** The session and the file

    The script keeps the dictionary in [st.session_state] and mirrors it in
    [categories.json].  Function bodies read and write both, so they run in
    a state monad over [world] whose results are a value or a raised
    exception. *)
Inductive exn : Type :=
| KeyError (key : string)
| ValueError (text : string)
| JSONDecodeError.

Inductive result (A : Type) : Type :=
| Ok (a : A)
| Raise (e : exn).
Arguments Ok {A} a.
Arguments Raise {A} e.

Record world : Type := mkWorld {
  categories : dict;
  (* contents of categories.json, [None] while the file does not exist *)
  disk : option string
}.

Definition M (A : Type) : Type := world -> result A * world.

Definition ret {A} (a : A) : M A := fun w => (Ok a, w).

Definition raise {A} (e : exn) : M A := fun w => (Raise e, w).

Definition bind {A B} (m : M A) (k : A -> M B) : M B :=
  fun w =>
    match m w with
    | (Ok a, w') => k a w'
    | (Raise e, w') => (Raise e, w')
    end.

Notation "x <- m ;; k" := (bind m (fun x => k))
  (at level 61, m at next level, right associativity).
Notation "m ;;; k" := (bind m (fun _ => k))
  (at level 61, right associativity).

Definition get_categories : M dict := fun w => (Ok (categories w), w).

Definition put_categories (d : dict) : M unit :=
  fun w => (Ok tt, mkWorld d (disk w)).

Definition write_file (text : string) : M unit :=
  fun w => (Ok tt, mkWorld (categories w) (Some text)).

(** [for x in xs: body x acc] with the loop-carried value [acc]. *)
Fixpoint for_each {A S} (xs : list A) (body : A -> S -> M S) (acc : S) : M S :=
  match xs with
  | [] => ret acc
  | x :: rest => acc' <- body x acc ;; for_each rest body acc'
  end.

(** ** [categorize_transactions] (lines 29-45) *)

Definition Uncategorized : string := "Uncategorized".

(** Lines 40-43: the loop over the rows for one category. *)
Fixpoint rows_loop (category : string) (lowered_keywords : list string)
  (todo : list (nat * row)) (df : frame) : frame :=
  match todo with
  | [] => df
  | (idx, r) :: rest =>
      let details := PyStr.strip (PyStr.lower (Narration r)) in
      let df' :=
        if PyStr.contains lowered_keywords details
        then at_set_Category df idx category
        else df in
      rows_loop category lowered_keywords rest df'
  end.

(** Lines 35-43: the body of the loop over the dictionary items. *)
Definition category_body (item : string * list string) (df : frame) : M frame :=
  let (category, keywords) := item in
  if String.eqb category Uncategorized || PyStr.is_empty keywords
  then ret df
  else
    let lowered_keywords :=
      map (fun keyword => PyStr.strip (PyStr.lower keyword)) keywords in
    ret (rows_loop category lowered_keywords (iterrows df) df).

Definition categorize_transactions (df : frame) : M frame :=
  let df := map (fun r => set_Category r Uncategorized) df in
  cats <- get_categories ;;
  for_each cats category_body df.

(** ** [json.dump] and [json.load] on the dictionary

    [save_categories] hands the dictionary to [json.dump] with its default
    arguments, and the start of the script reads it back with [json.load].
    Both are modelled on the text they write and read, for documents that
    are one object whose values are arrays of strings; the reader gives
    [None] on any other text (where Python raises, or builds a value that is
    not a dictionary of keyword lists). *)
Module Json.

Definition chars := list ascii.

Definition dquote : ascii := Eval cbv in ascii_of_N 34.
Definition backslash : ascii := Eval cbv in ascii_of_N 92.

Definition hex_digit (n : N) : ascii :=
  if (n <? 10)%N then ascii_of_N (48 + n) else ascii_of_N (87 + n).

(** One character under [ensure_ascii=True]: the short escapes, the
    printable ASCII characters as they are, [\u00xx] for the others. *)
Definition escape_char (c : ascii) : chars :=
  let n := PyStr.ord c in
  if Ascii.eqb c dquote then [backslash; dquote]
  else if Ascii.eqb c backslash then [backslash; backslash]
  else if (n =? 10)%N then [backslash; "n"%char]
  else if (n =? 13)%N then [backslash; "r"%char]
  else if (n =? 9)%N then [backslash; "t"%char]
  else if (n =? 12)%N then [backslash; "f"%char]
  else if (n =? 8)%N then [backslash; "b"%char]
  else if PyStr.between 32 126 n then [c]
  else [backslash; "u"%char; "0"%char; "0"%char;
        hex_digit (n / 16); hex_digit (n mod 16)].

Definition encode_string (s : string) : chars :=
  dquote :: flat_map escape_char (list_ascii_of_string s) ++ [dquote].

(** [", ".join(parts)] *)
Fixpoint join_comma (parts : list chars) : chars :=
  match parts with
  | [] => []
  | [p] => p
  | p :: rest => p ++ ","%char :: " "%char :: join_comma rest
  end.

Definition encode_list (xs : list string) : chars :=
  "["%char :: join_comma (map encode_string xs) ++ ["]"%char].

Definition encode_item (kv : string * list string) : chars :=
  encode_string (fst kv) ++ ":"%char :: " "%char :: encode_list (snd kv).

Definition encode_dict (d : dict) : chars :=
  "{"%char :: join_comma (map encode_item d) ++ ["}"%char].

Definition dumps (d : dict) : string := string_of_list_ascii (encode_dict d).

(** *** Reading *)

Definition hex_value (c : ascii) : option N :=
  let n := PyStr.ord c in
  if PyStr.between 48 57 n then Some (n - 48)%N
  else if PyStr.between 97 102 n then Some (n - 87)%N
  else if PyStr.between 65 70 n then Some (n - 55)%N
  else None.

Definition hex4 (a b c d : ascii) : option N :=
  match hex_value a, hex_value b, hex_value c, hex_value d with
  | Some x, Some y, Some z, Some t => Some (((x * 16 + y) * 16 + z) * 16 + t)%N
  | _, _, _, _ => None
  end.

Definition unescape (e : ascii) : option ascii :=
  if Ascii.eqb e dquote then Some dquote
  else if Ascii.eqb e backslash then Some backslash
  else if Ascii.eqb e "/"%char then Some "/"%char
  else if Ascii.eqb e "b"%char then Some (ascii_of_N 8)
  else if Ascii.eqb e "f"%char then Some (ascii_of_N 12)
  else if Ascii.eqb e "n"%char then Some (ascii_of_N 10)
  else if Ascii.eqb e "r"%char then Some (ascii_of_N 13)
  else if Ascii.eqb e "t"%char then Some (ascii_of_N 9)
  else None.

Definition push (c : ascii) (r : option (chars * chars)) : option (chars * chars) :=
  match r with
  | Some (s, rest) => Some (c :: s, rest)
  | None => None
  end.

(** The string scanner, entered after the opening quote; it returns the
    decoded characters and the text after the closing quote.  A raw
    control character is refused (strict mode), and so is an escape for a
    code point outside the modelled range. *)
Fixpoint scanstring (s : chars) : option (chars * chars) :=
  match s with
  | [] => None
  | c :: rest =>
      if Ascii.eqb c dquote then Some ([], rest)
      else if Ascii.eqb c backslash then
        match rest with
        | [] => None
        | e :: rest1 =>
            if Ascii.eqb e "u"%char then
              match rest1 with
              | h1 :: h2 :: h3 :: h4 :: rest2 =>
                  match hex4 h1 h2 h3 h4 with
                  | Some n =>
                      if (n <? 256)%N then push (ascii_of_N n) (scanstring rest2)
                      else None
                  | None => None
                  end
              | _ => None
              end
            else
              match unescape e with
              | Some ch => push ch (scanstring rest1)
              | None => None
              end
        end
      else if (PyStr.ord c <? 32)%N then None
      else push c (scanstring rest)
  end.

Definition is_ws (c : ascii) : bool :=
  Ascii.eqb c " "%char || (PyStr.ord c =? 9)%N
  || (PyStr.ord c =? 10)%N || (PyStr.ord c =? 13)%N.

Fixpoint skip_ws (s : chars) : chars :=
  match s with
  | c :: rest => if is_ws c then skip_ws rest else s
  | [] => []
  end.

(** The elements of an array, entered at the first character of an
    element; the text after the closing bracket is returned. *)
Fixpoint parse_elems (fuel : nat) (s : chars) : option (list string * chars) :=
  match fuel with
  | O => None
  | S fuel' =>
      match s with
      | c :: r =>
          if Ascii.eqb c dquote then
            match scanstring r with
            | Some (str, r1) =>
                match skip_ws r1 with
                | c1 :: r2 =>
                    if Ascii.eqb c1 "]"%char
                    then Some ([string_of_list_ascii str], r2)
                    else if Ascii.eqb c1 ","%char then
                      match parse_elems fuel' (skip_ws r2) with
                      | Some (more, r3) =>
                          Some (string_of_list_ascii str :: more, r3)
                      | None => None
                      end
                    else None
                | [] => None
                end
            | None => None
            end
          else None
      | [] => None
      end
  end.

(** An array, entered after the opening bracket. *)
Definition parse_array (fuel : nat) (s : chars) : option (list string * chars) :=
  match skip_ws s with
  | c :: r => if Ascii.eqb c "]"%char then Some ([], r)
              else parse_elems fuel (c :: r)
  | [] => None
  end.

(** The members of an object, entered at the quote of a key; the text
    after the closing brace is returned. *)
Fixpoint parse_members (fuel : nat) (s : chars)
  : option (list (string * list string) * chars) :=
  match fuel with
  | O => None
  | S fuel' =>
      match s with
      | c :: r =>
          if Ascii.eqb c dquote then
            match scanstring r with
            | Some (key, r1) =>
                match skip_ws r1 with
                | c1 :: r2 =>
                    if Ascii.eqb c1 ":"%char then
                      match skip_ws r2 with
                      | c2 :: r3 =>
                          if Ascii.eqb c2 "["%char then
                            match parse_array (S (length r3)) r3 with
                            | Some (value, r4) =>
                                match skip_ws r4 with
                                | c3 :: r5 =>
                                    if Ascii.eqb c3 "}"%char
                                    then Some ([(string_of_list_ascii key, value)], r5)
                                    else if Ascii.eqb c3 ","%char then
                                      match parse_members fuel' (skip_ws r5) with
                                      | Some (more, r6) =>
                                          Some ((string_of_list_ascii key, value) :: more, r6)
                                      | None => None
                                      end
                                    else None
                                | [] => None
                                end
                            | None => None
                            end
                          else None
                      | [] => None
                      end
                    else None
                | [] => None
                end
            | None => None
            end
          else None
      | [] => None
      end
  end.

(** [dict(pairs)]: a repeated key keeps its first position and its last
    value. *)
Definition dict_of_pairs (pairs : list (string * list string)) : dict :=
  fold_left (fun d kv => dict_set d (fst kv) (snd kv)) pairs [].

Definition parse_object (s : chars) : option (dict * chars) :=
  match skip_ws s with
  | c :: r =>
      if Ascii.eqb c "}"%char then Some ([], r)
      else
        match parse_members (S (length r)) (c :: r) with
        | Some (pairs, rest) => Some (dict_of_pairs pairs, rest)
        | None => None
        end
  | [] => None
  end.

Definition loads (text : string) : option dict :=
  match skip_ws (list_ascii_of_string text) with
  | c :: r =>
      if Ascii.eqb c "{"%char then
        match parse_object r with
        | Some (d, rest) =>
            match skip_ws rest with
            | [] => Some d
            | _ :: _ => None
            end
        | None => None
        end
      else None
  | [] => None
  end.

End Json.

(** ** [save_categories] (lines 24-26) and the start of the script
       (lines 12-21) *)

Definition save_categories : M unit :=
  cats <- get_categories ;;
  write_file (Json.dumps cats).

(** Lines 19-21: when the file exists its content replaces the session's
    dictionary. *)
Definition load_categories : M unit :=
  fun w =>
    match disk w with
    | None => (Ok tt, w)
    | Some text =>
        match Json.loads text with
        | Some d => put_categories d w
        | None => (Raise JSONDecodeError, w)
        end
    end.

(** Lines 12-21; [fresh] tells that the session has no ["categories"]
    entry yet. *)
Definition startup (fresh : bool) : M unit :=
  (if fresh then put_categories [(Uncategorized, [])] else ret tt) ;;;
  load_categories.

(** ** The amount columns of [load_transactions] (lines 55-69) *)

(** [float(s)] for a Python string. *)
Module PyFloat.

Definition chars := list ascii.

Definition is_digit (c : ascii) : bool := PyStr.between 48 57 (PyStr.ord c).

Definition digit_val (c : ascii) : N := (PyStr.ord c - 48)%N.

(** The white space [float] strips from both ends. *)
Definition is_space (c : ascii) : bool :=
  PyStr.between 9 13 (PyStr.ord c) || (PyStr.ord c =? 32)%N
  || (PyStr.ord c =? 133)%N || (PyStr.ord c =? 160)%N.

Fixpoint lskip (s : chars) : chars :=
  match s with
  | c :: r => if is_space c then lskip r else s
  | [] => []
  end.

Definition trim (s : chars) : chars := rev (lskip (rev (lskip s))).

(** Digits after the first one of a digit part; a single underscore may
    stand between two digits.  [acc] is the value read so far and [cnt]
    the number of digits. *)
Fixpoint more_digits (s : chars) (acc : N) (cnt : nat) : N * nat * chars :=
  match s with
  | c :: r =>
      if is_digit c then more_digits r (10 * acc + digit_val c)%N (S cnt)
      else if Ascii.eqb c "_"%char then
        match r with
        | d :: r' =>
            if is_digit d
            then more_digits r' (10 * acc + digit_val d)%N (S cnt)
            else (acc, cnt, s)
        | [] => (acc, cnt, s)
        end
      else (acc, cnt, s)
  | [] => (acc, cnt, [])
  end.

(** A digit part, if [s] starts with one. *)
Definition digitpart (s : chars) (acc : N) (cnt : nat) : option (N * nat * chars) :=
  match s with
  | c :: r =>
      if is_digit c
      then Some (more_digits r (10 * acc + digit_val c)%N (S cnt))
      else None
  | [] => None
  end.

Definition sign (s : chars) : bool * chars :=
  match s with
  | c :: r =>
      if Ascii.eqb c "-"%char then (true, r)
      else if Ascii.eqb c "+"%char then (false, r)
      else (false, s)
  | [] => (false, [])
  end.

(** The exponent, if one follows; [None] when the text that follows is
    not an exponent and not the end. *)
Definition exponent (s : chars) : option Z :=
  match s with
  | [] => Some 0%Z
  | c :: r =>
      if Ascii.eqb c "e"%char || Ascii.eqb c "E"%char then
        let (neg, r1) := sign r in
        match digitpart r1 0%N 0 with
        | Some (e, _, []) => Some (if neg then (- Z.of_N e)%Z else Z.of_N e)
        | _ => None
        end
      else None
  end.

(** [mant * 10 ^ e] *)
Definition scale (mant : N) (e : Z) : Q :=
  match e with
  | Zneg p => Qred (Z.of_N mant # Pos.pow 10 p)
  | _ => Qred ((Z.of_N mant * 10 ^ e)%Z # 1)
  end.

Definition signed (neg : bool) (q : Q) : Q := if neg then Qred (Qopp q) else q.

(** [number [exponent]] of the grammar of [float]. *)
Definition decimal (neg : bool) (s : chars) : option pyfloat :=
  let '(int_val, int_cnt, s1) :=
    match digitpart s 0%N 0 with
    | Some r => r
    | None => (0%N, 0, s)
    end in
  let '(mant, cnt, s2) :=
    match s1 with
    | c :: r =>
        if Ascii.eqb c "."%char then
          match digitpart r int_val int_cnt with
          | Some res => res
          | None => (int_val, int_cnt, r)
          end
        else (int_val, int_cnt, s1)
    | [] => (int_val, int_cnt, s1)
    end in
  match cnt with
  | O => None
  | S _ =>
      match exponent s2 with
      | Some e =>
          Some (Finite (signed neg (scale mant (e - Z.of_nat (cnt - int_cnt)))))
      | None => None
      end
  end.

Definition lower_chars (s : chars) : string :=
  PyStr.lower (string_of_list_ascii s).

(** [float(s)]; [None] stands for the [ValueError]. *)
Definition parse (text : string) : option pyfloat :=
  let (neg, body) := sign (trim (list_ascii_of_string text)) in
  let word := lower_chars body in
  if String.eqb word "nan" then Some NaN
  else if String.eqb word "inf" || String.eqb word "infinity" then Some (Inf neg)
  else decimal neg body.

End PyFloat.

(** A cell of a column read from the CSV file: text, or missing. *)
Inductive cell : Type :=
| Missing
| Text (s : string).

(** An element of the object column between [replace] and the last
    [astype]. *)
Inductive obj : Type :=
| OInt (z : Z)
| OStr (s : string).

(** [.astype(str)]: a missing cell is the float [nan], whose text is
    ["nan"]. *)
Definition astype_str (v : cell) : string :=
  match v with
  | Missing => "nan"
  | Text s => s
  end.

(** [.str.replace(",", "")] *)
Definition str_replace_comma (s : string) : string := PyStr.remove_char ","%char s.

(** [.replace(["", "nan", "NaN"], 0)]: an element equal to one in the list
    becomes the integer 0. *)
Definition replace_with_0 (s : string) : obj :=
  if PyStr.contains [""; "nan"; "NaN"] s then OInt 0 else OStr s.

(** [.astype(float)] on one element. *)
Definition astype_float (v : obj) : result pyfloat :=
  match v with
  | OInt z => Ok (Finite (inject_Z z))
  | OStr s =>
      match PyFloat.parse s with
      | Some f => Ok f
      | None => Raise (ValueError s)
      end
  end.

(** Lines 55-61 (and 63-69) on one cell. *)
Definition clean_amount (v : cell) : result pyfloat :=
  astype_float (replace_with_0 (str_replace_comma (astype_str v))).

(** The same on a column: the first element that does not convert raises. *)
Fixpoint clean_amounts (col : list cell) : result (list pyfloat) :=
  match col with
  | [] => Ok []
  | v :: rest =>
      match clean_amount v with
      | Raise e => Raise e
      | Ok f =>
          match clean_amounts rest with
          | Ok fs => Ok (f :: fs)
          | Raise e => Raise e
          end
      end
  end.

(** ** [add_keyword_to_category] (lines 81-87)

    The keyword lists of the dictionary are separate objects (each comes
    from [json.load] or from a fresh [[]]), so the [append] to one changes
    the entry of [category] only. *)

Definition add_keyword_to_category (category keyword : string) : M bool :=
  let keyword := PyStr.strip keyword in
  if PyStr.truthy keyword then
    cats <- get_categories ;;
    match dict_get cats category with
    | None => raise (KeyError category)
    | Some keywords =>
        if negb (PyStr.contains keywords keyword) then
          put_categories (dict_set cats category (keywords ++ [keyword])) ;;;
          save_categories ;;;
          ret true
        else ret false
    end
  else ret false.

(** ** The "Add Category" button (lines 110-117)

    The result tells whether [st.rerun()] was reached, that is, whether the
    name was inserted. *)
Definition add_category (add_button : bool) (new_category : string) : M bool :=
  if add_button && PyStr.truthy new_category then
    cats <- get_categories ;;
    if negb (dict_mem cats new_category) then
      put_categories (dict_set cats new_category []) ;;;
      save_categories ;;;
      ret true
    else ret false
  else ret false.

(** ** The summary tables (lines 157-158 and 217-218) *)

(** Float addition; a finite sum is kept in lowest terms. *)
Definition fadd (a b : pyfloat) : pyfloat :=
  match a, b with
  | NaN, _ | _, NaN => NaN
  | Finite x, Finite y => Finite (Qred (x + y))
  | Inf s, Finite _ | Finite _, Inf s => Inf s
  | Inf s, Inf t => if Bool.eqb s t then Inf s else NaN
  end.

Definition isna (a : pyfloat) : bool :=
  match a with NaN => true | _ => false end.

(** One step of a group's sum: a missing value is skipped. *)
Definition nanadd (total val : pyfloat) : pyfloat :=
  if isna val then total else fadd total val.

(** The groups of [groupby("Category")] with their running sums, kept in
    increasing order of the key.  [group_add] is one step of the summing
    loop: the group of the row's key, which starts from zero, receives the
    value. *)
Definition groups := list (string * pyfloat).

Fixpoint group_add (gs : groups) (key : string) (val : pyfloat) : groups :=
  match gs with
  | [] => [(key, nanadd (Finite 0) val)]
  | (k, total) :: rest =>
      match String.compare key k with
      | Eq => (k, nanadd total val) :: rest
      | Lt => (key, nanadd (Finite 0) val) :: gs
      | Gt => (k, total) :: group_add rest key val
      end
  end.

(** [df.groupby("Category")[col].sum().reset_index()] *)
Definition groupby_sum (col : row -> pyfloat) (df : frame) : groups :=
  fold_left (fun gs r => group_add gs (Category r) (col r)) df [].

(** The order of [sort_values(col, ascending=False)]: larger totals first,
    missing totals last. *)
Definition fge (a b : pyfloat) : bool :=
  match a, b with
  | _, NaN => true
  | NaN, _ => false
  | Inf false, _ => true
  | _, Inf true => true
  | Inf true, _ => false
  | _, Inf false => false
  | Finite x, Finite y => Qle_bool y x
  end.

Fixpoint insert_desc (g : string * pyfloat) (gs : groups) : groups :=
  match gs with
  | [] => [g]
  | h :: rest =>
      if fge (snd h) (snd g) then h :: insert_desc g rest
      else g :: gs
  end.

(** Sorting by insertion from the right keeps rows of equal total in their
    former order; pandas leaves that order open. *)
Definition sort_values_desc (gs : groups) : groups :=
  fold_right insert_desc [] gs.

(** Lines 157-158. *)
Definition category_totals (col : row -> pyfloat) (df : frame) : groups :=
  sort_values_desc (groupby_sum col df).

(** ** [load_transactions] as a whole (lines 47-78)

    The table is taken as [pd.read_csv] and the renaming of the columns
    (lines 49-51) leave it, with the four columns the function uses and a
    text in every narration cell.  [to_datetime] stands for
    [pd.to_datetime(_, format="%d/%m/%y")] on one cell: the timestamp it
    builds, as text, or [None] where it raises. *)
Record csv_row : Type := mkCsv {
  csv_Date : cell;
  csv_Narration : string;
  csv_Withdrawal : cell;
  csv_Deposit : cell
}.

(** The frame after lines 55-72, before the category column exists. *)
Fixpoint assemble (file : list csv_row) (ws ds : list pyfloat)
  (dates : list string) : frame :=
  match file, ws, ds, dates with
  | r :: file', w :: ws', d :: ds', t :: dates' =>
      mkRow t (csv_Narration r) w d "" :: assemble file' ws' ds' dates'
  | _, _, _, _ => []
  end.

Section Loader.

Variable to_datetime : cell -> option string.

(** Line 72 on the column: one cell that does not parse raises. *)
Fixpoint to_datetimes (col : list cell) : option (list string) :=
  match col with
  | [] => Some []
  | v :: rest =>
      match to_datetime v, to_datetimes rest with
      | Some t, Some ts => Some (t :: ts)
      | _, _ => None
      end
  end.

(** Lines 47-78.  Whatever is raised inside the [try] is shown with
    [st.error] and the function ends without a value, that is, with
    [None]. *)
Definition load_transactions (file : list csv_row) : M (option frame) :=
  match clean_amounts (map csv_Withdrawal file) with
  | Raise _ => ret None
  | Ok ws =>
      match clean_amounts (map csv_Deposit file) with
      | Raise _ => ret None
      | Ok ds =>
          match to_datetimes (map csv_Date file) with
          | None => ret None
          | Some dates =>
              fun w =>
                match categorize_transactions (assemble file ws ds dates) w with
                | (Ok df, w') => (Ok (Some df), w')
                | (Raise _, w') => (Ok None, w')
                end
          end
      end
  end.

End Loader.

(** ** The two views of [main] (lines 99-103)

    [df[df[col] > 0].copy()] keeps the rows whose amount is above zero,
    each under the label it has in [df]. *)
Definition view := list (nat * row).

(** [x > 0] on a float: false on [nan]. *)
Definition gt0 (a : pyfloat) : bool :=
  match a with
  | Finite q => negb (Qle_bool q 0)
  | Inf negative => negb negative
  | NaN => false
  end.

Definition positive_rows (col : row -> pyfloat) (df : frame) : view :=
  filter (fun ir => gt0 (col (snd ir))) (iterrows df).

Definition debits_df (df : frame) : view := positive_rows Withdrawal_Amt df.

Definition credits_df (df : frame) : view := positive_rows Deposit_Amt df.

(** ** The "Apply Changes" button (lines 143-154 and 203-214) *)

(** [v.at[idx, "Category"]]; [None] stands for the [KeyError]. *)
Fixpoint at_get_Category (v : view) (idx : nat) : option string :=
  match v with
  | [] => None
  | (i, r) :: rest =>
      if Nat.eqb i idx then Some (Category r) else at_get_Category rest idx
  end.

(** [v.at[idx, "Category"] = c] for a label of the view. *)
Fixpoint view_set_Category (v : view) (idx : nat) (c : string) : view :=
  match v with
  | [] => []
  | (i, r) :: rest =>
      if Nat.eqb i idx then (i, set_Category r c) :: view_set_Category rest idx c
      else (i, r) :: view_set_Category rest idx c
  end.

Definition label_text (idx : nat) : string :=
  NilEmpty.string_of_uint (Nat.to_uint idx).

(** The loop over the edited table.  The view is the one kept in the
    session ([st.session_state.debits_df]); it is returned beside the
    result because a row relabelled before an exception stays
    relabelled. *)
Fixpoint apply_changes (edited_df : view) (session_df : view) (w : world)
  : result unit * view * world :=
  match edited_df with
  | [] => (Ok tt, session_df, w)
  | (idx, r) :: rest =>
      let new_category := Category r in
      match at_get_Category session_df idx with
      | None => (Raise (KeyError (label_text idx)), session_df, w)
      | Some current =>
          if String.eqb new_category current
          then apply_changes rest session_df w
          else
            let details := Narration r in
            let session_df' := view_set_Category session_df idx new_category in
            match add_keyword_to_category new_category details w with
            | (Ok _, w') => apply_changes rest session_df' w'
            | (Raise e, w') => (Raise e, session_df', w')
            end
      end
  end.

(** ** Runs of the script

    What a user can make the script do to the session and the file, one
    step at a time: a rerun (lines 12-21 with the session already set up),
    a click on "Add Category", a call of [add_keyword_to_category], a
    categorization.  An exception ends the step and leaves the state as it
    is by then. *)
Inductive action : Type :=
| Rerun
| AddCategory (add_button : bool) (new_category : string)
| AddKeyword (category keyword : string)
| Categorize (df : frame).

Definition run_action (a : action) (w : world) : world :=
  match a with
  | Rerun => snd (startup false w)
  | AddCategory b name => snd (add_category b name w)
  | AddKeyword c k => snd (add_keyword_to_category c k w)
  | Categorize df => snd (categorize_transactions df w)
  end.

Definition run_actions (acts : list action) (w : world) : world :=
  fold_left (fun w a => run_action a w) acts w.

(** * Notions used in the statements *)

Definition clean (s : string) : string := PyStr.strip (PyStr.lower s).

(** Whether the loop body of lines 35-43 does anything for an item, and
    whether a row is relabelled by it. *)
Definition skipped (item : string * list string) : bool :=
  String.eqb (fst item) Uncategorized || PyStr.is_empty (snd item).

Definition hits (item : string * list string) (r : row) : bool :=
  negb (skipped item) && PyStr.contains (map clean (snd item)) (clean (Narration r)).

(** The label a row carries after the items [cats] have been gone through,
    when it carried [c] before. *)
Definition relabel (cats : dict) (r : row) (c : string) : string :=
  fold_left (fun c item => if hits item r then fst item else c) cats c.

Definition key_lt (a b : string) : Prop := String.compare a b = Lt.

(** The groups are kept in strictly increasing order of the key. *)
Definition keys_sorted (gs : groups) : Prop :=
  StronglySorted key_lt (map fst gs).

(** The total recorded for a key. *)
Fixpoint total_of (gs : groups) (c : string) : option pyfloat :=
  match gs with
  | [] => None
  | (k, t) :: rest => if String.eqb c k then Some t else total_of rest c
  end.

Definition or_zero (t : option pyfloat) : pyfloat :=
  match t with Some x => x | None => Finite 0 end.

Definition in_group (c : string) (r : row) : bool := String.eqb (Category r) c.

(** The values of column [col] in the rows of category [c], in row
    order. *)
Definition group_values (col : row -> pyfloat) (c : string) (df : frame) : list pyfloat :=
  map col (filter (in_group c) df).

(** [a] stands before [b] in a table sorted by decreasing total. *)
Definition before (a b : string * pyfloat) : Prop := fge (snd a) (snd b) = true.

(** ** Four sentences of the specification, as it words them

    Each is compared below with what the code does. *)

(** The tie-break as the specification words it: the first category of the
    store with a matching keyword is the row's category. *)
Definition first_match_wins : Prop :=
  forall (w : world) (df : frame) (i : nat) (r : row)
         (pre post : dict) (c : string) (kws : list string),
    categories w = pre ++ (c, kws) :: post ->
    nth_error df i = Some r ->
    c <> Uncategorized ->
    (exists k, In k kws /\ clean k = clean (Narration r)) ->
    (forall c' kws' k', In (c', kws') pre -> c' <> Uncategorized ->
                        In k' kws' -> clean k' <> clean (Narration r)) ->
    exists df' r',
      categorize_transactions df w = (Ok df', w)
      /\ nth_error df' i = Some r' /\ Category r' = c.

(** The failure as the specification words it: an unknown category makes
    [add_keyword] fail, whatever the keyword. *)
Definition unknown_category_always_fails : Prop :=
  forall (w : world) (category keyword : string),
    dict_get (categories w) category = None ->
    exists e, add_keyword_to_category category keyword w = (Raise e, w).

(** The rejection as the specification words it: an empty or already
    present name makes [add_category] fail. *)
Definition invalid_name_fails : Prop :=
  forall (w : world) (name : string),
    name = "" \/ dict_mem (categories w) name = true ->
    exists e, add_category true name w = (Raise e, w).

(** The clean-up as the specification words it: the text "nan" in any
    letter case becomes zero. *)
Definition nan_any_case_is_zero : Prop :=
  forall s : string,
    PyStr.lower s = "nan" -> clean_amount (Text s) = Ok (Finite 0).

(** ** Notions for the further properties *)

(** The session and the file agree: the keys are distinct and, when the
    file exists, loading it gives the session's dictionary. *)
Definition store_ok (w : world) : Prop :=
  well_formed (categories w)
  /\ forall text, disk w = Some text -> Json.loads text = Some (categories w).

(** [d'] has every key of [d], in the same order and before any new one,
    and under each of them the keywords of [d] followed by any new ones. *)
Definition grows (d d' : dict) : Prop :=
  (exists more, keys d' = keys d ++ more)
  /\ forall c kws, dict_get d c = Some kws ->
       exists more, dict_get d' c = Some (kws ++ more).

Definition printable (c : ascii) : bool := PyStr.between 32 126 (PyStr.ord c).

Definition labels (v : view) : list nat := map fst v.

(** A sum that starts from zero and takes in amounts above zero. *)
Definition running (a : pyfloat) : Prop := a = Finite 0 \/ gt0 a = true.



(** A row of a view without its category. *)
Definition bare (ir : nat * row) : nat * row := (fst ir, set_Category (snd ir) "").

(** What [lstrip] leaves does not start with white space, and [rstrip]
    keeps such a start. *)
Definition starts_clean (s : string) : Prop :=
  match s with
  | EmptyString => True
  | String c _ => PyStr.isspace c = false
  end.

(** * Properties *)

(** ** Sample runs *)

Example strip_lower_examples :
  PyStr.strip (PyStr.lower "  AmaZon Pay  ") = "amazon pay"
  /\ PyStr.strip "   " = ""
  /\ PyStr.strip (String (ascii_of_N 9) "UPI-123 ") = "UPI-123"
  /\ PyStr.lower (String (ascii_of_N 201) "COLE") = String (ascii_of_N 233) "cole".
Proof. repeat split. Qed.

Example startup_examples :
  startup true (mkWorld [] None) = (Ok tt, mkWorld [(Uncategorized, [])] None)
  /\ startup false (mkWorld [("Food", [])] (Some "{}")) = (Ok tt, mkWorld [] (Some "{}"))
  /\ fst (startup true (mkWorld [] (Some "{"))) = Raise JSONDecodeError.
Proof. repeat split. Qed.

Example dumps_example :
  Json.dumps [("Uncategorized", []); ("Food", ["swiggy"; "Zomato  "])]
  = ("{" ++ String Json.dquote "Uncategorized" ++ String Json.dquote ": [], "
    ++ String Json.dquote "Food" ++ String Json.dquote ": ["
    ++ String Json.dquote "swiggy" ++ String Json.dquote ", "
    ++ String Json.dquote "Zomato  " ++ String Json.dquote "]}")%string.
Proof. reflexivity. Qed.

Example loads_example :
  Json.loads (Json.dumps [("Uncategorized", []); ("Food", ["swiggy"; "Zomato  "])])
  = Some [("Uncategorized", []); ("Food", ["swiggy"; "Zomato  "])].
Proof. reflexivity. Qed.

Example clean_examples :
  clean_amount (Text "1,234.50") = Ok (Finite (2469 # 2))
  /\ clean_amount (Text "") = Ok (Finite 0)
  /\ clean_amount (Text "nan") = Ok (Finite 0)
  /\ clean_amount (Text "NAN") = Ok NaN
  /\ clean_amount (Text "1_0e-1") = Ok (Finite 1)
  /\ clean_amount (Text " -.5E+2 ") = Ok (Finite (-50 # 1))
  /\ clean_amount (Text "1_") = Raise (ValueError "1_")
  /\ clean_amount (Text "12,3.") = Ok (Finite 123)
  /\ clean_amount (Text ".") = Raise (ValueError ".")
  /\ clean_amount (Text "-iNf") = Ok (Inf true)
  /\ clean_amount Missing = Ok (Finite 0).
Proof. repeat split; vm_compute; reflexivity. Qed.

(** ** The categorizer *)

Lemma at_set_Category_app (pre : frame) (r : row) (post : frame) (c : string) :
  at_set_Category (pre ++ r :: post) (length pre) c = pre ++ set_Category r c :: post.
Proof.
  induction pre as [|p pre IH]; simpl; [reflexivity|].
  now rewrite IH.
Qed.

Lemma rows_loop_from (c : string) (lk : list string) (post pre : frame) :
  rows_loop c lk (iterrows_from (length pre) post) (pre ++ post)
  = pre ++ map (fun r => if PyStr.contains lk (clean (Narration r))
                         then set_Category r c else r) post.
Proof.
  revert pre. induction post as [|r post IH]; intros pre; simpl.
  - reflexivity.
  - fold (clean (Narration r)).
    destruct (PyStr.contains lk (clean (Narration r))).
    + rewrite at_set_Category_app.
      change (pre ++ set_Category r c :: post)
        with (pre ++ [set_Category r c] ++ post).
      rewrite app_assoc.
      replace (S (length pre)) with (length (pre ++ [set_Category r c]))
        by (rewrite length_app; simpl; lia).
      rewrite IH, <- app_assoc. reflexivity.
    + change (pre ++ r :: post) with (pre ++ [r] ++ post).
      rewrite app_assoc.
      replace (S (length pre)) with (length (pre ++ [r]))
        by (rewrite length_app; simpl; lia).
      rewrite IH, <- app_assoc. reflexivity.
Qed.

Lemma rows_loop_map (c : string) (lk : list string) (df : frame) :
  rows_loop c lk (iterrows df) df
  = map (fun r => if PyStr.contains lk (clean (Narration r))
                  then set_Category r c else r) df.
Proof. exact (rows_loop_from c lk df []). Qed.

Lemma category_body_run (item : string * list string) (df : frame) (w : world) :
  category_body item df w
  = (Ok (map (fun r => if hits item r then set_Category r (fst item) else r) df), w).
Proof.
  destruct item as [c kws]. unfold category_body, hits, skipped. simpl fst. simpl snd.
  destruct (String.eqb c Uncategorized || PyStr.is_empty kws); simpl.
  - unfold ret. f_equal. f_equal. symmetry. apply map_id.
  - unfold ret. rewrite rows_loop_map. reflexivity.
Qed.

Lemma for_each_category_body (cats : dict) (g : row -> string) (df : frame) (w : world) :
  for_each cats category_body (map (fun r => set_Category r (g r)) df) w
  = (Ok (map (fun r => set_Category r (relabel cats r (g r))) df), w).
Proof.
  revert g. induction cats as [|item cats IH]; intros g; simpl.
  - reflexivity.
  - unfold bind. rewrite category_body_run, map_map.
    rewrite <- (IH (fun r => if hits item r then fst item else g r)).
    f_equal. apply map_ext. intros r.
    unfold hits. simpl Narration.
    destruct (negb (skipped item) && _); reflexivity.
Qed.

(** What [categorize_transactions] computes: every row keeps its place and
    its other fields and gets the label of the last item that hits it; the
    session and the file are as before. *)
Lemma categorize_transactions_run (df : frame) (w : world) :
  categorize_transactions df w
  = (Ok (map (fun r => set_Category r (relabel (categories w) r Uncategorized)) df), w).
Proof.
  unfold categorize_transactions, bind, get_categories.
  exact (for_each_category_body (categories w) (fun _ => Uncategorized) df w).
Qed.

Lemma contains_In (xs : list string) (x : string) :
  PyStr.contains xs x = true <-> In x xs.
Proof.
  unfold PyStr.contains. rewrite existsb_exists. split.
  - intros [y [Hy Heq]]. apply String.eqb_eq in Heq. now subst.
  - intros H. exists x. split; [assumption | apply String.eqb_refl].
Qed.

(** An item relabels a row exactly when it is not the reserved one and one
    of its keywords, cleaned, is the cleaned narration. *)
Lemma hits_iff (item : string * list string) (r : row) :
  hits item r = true
  <-> fst item <> Uncategorized
      /\ exists k, In k (snd item) /\ clean k = clean (Narration r).
Proof.
  unfold hits, skipped. destruct item as [c kws]; simpl.
  rewrite andb_true_iff, negb_true_iff, orb_false_iff, contains_In, in_map_iff.
  rewrite String.eqb_neq. split.
  - intros [[Hc _] [k [Hk Hin]]]. split; [assumption | now exists k].
  - intros [Hc [k [Hin Hk]]]. repeat split; try assumption.
    + destruct kws; [contradiction | reflexivity].
    + now exists k.
Qed.

Lemma relabel_app (pre post : dict) (r : row) (c : string) :
  relabel (pre ++ post) r c = relabel post r (relabel pre r c).
Proof. unfold relabel. apply fold_left_app. Qed.

Lemma relabel_no_hit (cats : dict) (r : row) (c : string) :
  (forall item, In item cats -> hits item r = false) -> relabel cats r c = c.
Proof.
  revert c. induction cats as [|item cats IH]; intros c H; simpl; [reflexivity|].
  rewrite (H item (or_introl eq_refl)). apply IH.
  intros it Hit. apply H. now right.
Qed.

(** The last item that hits decides. *)
Lemma relabel_last_hit (pre post : dict) (item : string * list string)
  (r : row) (c : string) :
  hits item r = true ->
  (forall item', In item' post -> hits item' r = false) ->
  relabel (pre ++ item :: post) r c = fst item.
Proof.
  intros Hhit Hpost. rewrite relabel_app. simpl. rewrite Hhit.
  now apply relabel_no_hit.
Qed.

(** A label is the one the row came with or the name of an item that
    hits. *)
Lemma relabel_cases (cats : dict) (r : row) (c : string) :
  relabel cats r c = c
  \/ exists item, In item cats /\ hits item r = true
                  /\ relabel cats r c = fst item.
Proof.
  revert c. induction cats as [|item cats IH]; intros c; simpl; [now left|].
  destruct (hits item r) eqn:Hh.
  - destruct (IH (fst item)) as [Heq | [it [Hin [Hit Heq]]]].
    + right. exists item. repeat split; auto.
    + right. exists it. repeat split; auto.
  - destruct (IH c) as [Heq | [it [Hin [Hit Heq]]]].
    + now left.
    + right. exists it. repeat split; auto.
Qed.

(** A row that some item hits does not end with the reserved label. *)
Lemma relabel_hit_named (cats : dict) (item : string * list string)
  (r : row) (c : string) :
  In item cats -> hits item r = true -> relabel cats r c <> Uncategorized.
Proof.
  revert c. induction cats as [|it cats IH]; intros c Hin Hhit; [contradiction|].
  simpl. destruct Hin as [Heq | Hin].
  - subst it. rewrite Hhit.
    destruct (relabel_cases cats r (fst item))
      as [Hrel | [it [_ [Hit Hrel]]]]; rewrite Hrel.
    + apply hits_iff in Hhit. tauto.
    + apply hits_iff in Hit. tauto.
  - now apply IH.
Qed.

Lemma nth_error_categorized (df : frame) (f : row -> string) (i : nat) (r : row) :
  nth_error df i = Some r ->
  nth_error (map (fun r => set_Category r (f r)) df) i = Some (set_Category r (f r)).
Proof. intros H. rewrite nth_error_map, H. reflexivity. Qed.

(** C1, as stated, fails: with "Food" stored before "Dining" and the
    narration "SWIGGY" matching a keyword of both, the row ends in
    "Dining", the later category. *)
Lemma C1_first_match_overridden : ~ first_match_wins.
Proof.
  intros H.
  pose (r := mkRow "01/04/23" "SWIGGY" (Finite 250) (Finite 0) "").
  pose (w := mkWorld [("Food", ["swiggy"]); ("Dining", ["Swiggy "])] None).
  destruct (H w [r] 0 r [] [("Dining", ["Swiggy "])] "Food" ["swiggy"])
    as [df' [r' [Hrun [Hnth Hcat]]]].
  - reflexivity.
  - reflexivity.
  - discriminate.
  - exists "swiggy". split; [now left | reflexivity].
  - intros c' kws' k' [].
  - rewrite categorize_transactions_run in Hrun.
    injection Hrun as Hdf. subst df'.
    vm_compute in Hnth. injection Hnth as Hr. subst r'.
    discriminate Hcat.
Qed.

(** C1, amended: categories are gone through in their stored order and a
    later matching category overrides an earlier one, so a row ends with
    the last category of the store (other than "Uncategorized") that has a
    keyword matching its cleaned narration. *)
Theorem C1_last_match_wins :
  forall (w : world) (df : frame) (i : nat) (r : row)
         (pre post : dict) (c : string) (kws : list string),
    categories w = pre ++ (c, kws) :: post ->
    nth_error df i = Some r ->
    c <> Uncategorized ->
    (exists k, In k kws /\ clean k = clean (Narration r)) ->
    (forall c' kws' k', In (c', kws') post -> c' <> Uncategorized ->
                        In k' kws' -> clean k' <> clean (Narration r)) ->
    exists df' r',
      categorize_transactions df w = (Ok df', w)
      /\ nth_error df' i = Some r' /\ Category r' = c.
Proof.
  intros w df i r pre post c kws Hcats Hnth Hc Hk Hpost.
  eexists. exists (set_Category r c). split; [apply categorize_transactions_run|].
  split; [|reflexivity].
  rewrite (nth_error_categorized _ _ _ _ Hnth). do 2 f_equal.
  rewrite Hcats.
  apply (relabel_last_hit pre post (c, kws)).
  - apply hits_iff. split; assumption.
  - intros [c' kws'] Hin.
    destruct (hits (c', kws') r) eqn:Hh; [|reflexivity].
    apply hits_iff in Hh. destruct Hh as [Hc' [k' [Hin' Heq]]].
    exfalso. exact (Hpost c' kws' k' Hin Hc' Hin' Heq).
Qed.

Lemma C1_last_match_wins_witness :
  exists df' r',
    categorize_transactions
      [mkRow "01/04/23" "SWIGGY" (Finite 250) (Finite 0) ""]
      (mkWorld [("Food", ["swiggy"]); ("Dining", ["Swiggy "])] None)
    = (Ok df', mkWorld [("Food", ["swiggy"]); ("Dining", ["Swiggy "])] None)
    /\ nth_error df' 0 = Some r' /\ Category r' = "Dining".
Proof.
  apply (C1_last_match_wins
           (mkWorld [("Food", ["swiggy"]); ("Dining", ["Swiggy "])] None)
           [mkRow "01/04/23" "SWIGGY" (Finite 250) (Finite 0) ""] 0
           (mkRow "01/04/23" "SWIGGY" (Finite 250) (Finite 0) "")
           [("Food", ["swiggy"])] [] "Dining" ["Swiggy "]).
  - reflexivity.
  - reflexivity.
  - discriminate.
  - exists "Swiggy ". split; [now left | reflexivity].
  - intros c' kws' k' [].
Defined.

(** C3: after [categorize_transactions] every row's category is
    "Uncategorized" or a key of the category store the call ran with. *)
Theorem C3_category_is_known :
  forall (w : world) (df : frame),
  exists df',
    categorize_transactions df w = (Ok df', w)
    /\ Forall (fun r' => Category r' = Uncategorized
                         \/ In (Category r') (keys (categories w))) df'.
Proof.
  intros w df. eexists. split; [apply categorize_transactions_run|].
  apply Forall_forall. intros r' Hin.
  apply in_map_iff in Hin. destruct Hin as [r [Hr _]]. subst r'. simpl.
  destruct (relabel_cases (categories w) r Uncategorized)
    as [Heq | [item [Hin [_ Heq]]]]; rewrite Heq.
  - now left.
  - right. unfold keys. now apply in_map.
Qed.

(** C5: a row leaves [categorize_transactions] with a category of its own
    exactly when some category other than "Uncategorized" holds a keyword
    whose lower-cased, trimmed form is equal, as a whole string, to the
    lower-cased, trimmed narration; so the keyword "Amazon" matches the
    narration "  amazon  ", and "amazon" does not match "amazon pay". *)
Theorem C5_match_is_cleaned_equality :
  (forall (w : world) (df : frame),
   exists df',
     categorize_transactions df w = (Ok df', w)
     /\ forall i r, nth_error df i = Some r ->
        exists r', nth_error df' i = Some r'
          /\ (Category r' <> Uncategorized
              <-> exists c kws k,
                    In (c, kws) (categories w) /\ c <> Uncategorized /\ In k kws
                    /\ PyStr.strip (PyStr.lower k)
                       = PyStr.strip (PyStr.lower (Narration r))))
  /\ (forall d wd dp,
        fst (categorize_transactions [mkRow d "  amazon  " wd dp ""]
               (mkWorld [(Uncategorized, []); ("Shopping", ["Amazon"])] None))
        = Ok [mkRow d "  amazon  " wd dp "Shopping"])
  /\ (forall d wd dp,
        fst (categorize_transactions [mkRow d "amazon pay" wd dp ""]
               (mkWorld [(Uncategorized, []); ("Shopping", ["amazon"])] None))
        = Ok [mkRow d "amazon pay" wd dp Uncategorized]).
Proof.
  split; [|split; intros; reflexivity].
  intros w df. eexists. split; [apply categorize_transactions_run|].
  intros i r Hnth. eexists. split; [apply (nth_error_categorized _ _ _ _ Hnth)|].
  simpl. fold (clean (Narration r)). split.
  - intros Hne.
    destruct (relabel_cases (categories w) r Uncategorized)
      as [Heq | [[c kws] [Hin [Hhit _]]]]; [contradiction|].
    apply hits_iff in Hhit. destruct Hhit as [Hc [k [Hk Heq]]].
    exists c, kws, k. repeat split; assumption.
  - intros [c [kws [k [Hin [Hc [Hk Heq]]]]]].
    assert (Hhit : hits (c, kws) r = true)
      by (apply hits_iff; split; [assumption | now exists k]).
    exact (relabel_hit_named _ _ _ Uncategorized Hin Hhit).
Qed.

(** C10: [categorize_transactions] writes the category field only: the
    rows are the same in number and order, each with its date, narration,
    withdrawal and deposit, and the category store (in the session and in
    the file) is the one the call started with. *)
Theorem C10_only_category_changes :
  forall (w : world) (df : frame),
  exists df',
    categorize_transactions df w = (Ok df', w)
    /\ length df' = length df
    /\ map Date df' = map Date df
    /\ map Narration df' = map Narration df
    /\ map Withdrawal_Amt df' = map Withdrawal_Amt df
    /\ map Deposit_Amt df' = map Deposit_Amt df
    /\ forall i r', nth_error df' i = Some r' ->
         exists r, nth_error df i = Some r /\ r' = set_Category r (Category r').
Proof.
  intros w df. eexists. split; [apply categorize_transactions_run|].
  split; [apply length_map|].
  repeat split; try (rewrite map_map; reflexivity).
  intros i r' Hnth. rewrite nth_error_map in Hnth.
  destruct (nth_error df i) as [r|]; [|discriminate].
  injection Hnth as Hr. exists r. split; [reflexivity|]. now subst r'.
Qed.

(** ** The category store *)

Lemma dict_get_set_same (d : dict) (k : string) (v : list string) :
  dict_get (dict_set d k v) k = Some v.
Proof.
  induction d as [|[k' v'] d IH]; simpl.
  - now rewrite String.eqb_refl.
  - destruct (String.eqb k k') eqn:E; simpl; rewrite E; [reflexivity | exact IH].
Qed.

Lemma dict_get_set_other (d : dict) (k k' : string) (v : list string) :
  k' <> k -> dict_get (dict_set d k v) k' = dict_get d k'.
Proof.
  intros Hne. induction d as [|[k0 v0] d IH]; simpl.
  - apply String.eqb_neq in Hne. now rewrite Hne.
  - destruct (String.eqb k k0) eqn:E; simpl.
    + apply String.eqb_eq in E. subst k0.
      apply String.eqb_neq in Hne. now rewrite Hne.
    + now rewrite IH.
Qed.

Lemma dict_get_None (d : dict) (k : string) :
  dict_get d k = None <-> ~ In k (keys d).
Proof.
  induction d as [|[k' v'] d IH]; simpl.
  - tauto.
  - destruct (String.eqb k k') eqn:E.
    + apply String.eqb_eq in E. subst. split; [discriminate | tauto].
    + apply String.eqb_neq in E. rewrite IH. split.
      * intros H [Heq | Hin]; [now subst | tauto].
      * tauto.
Qed.

Lemma dict_set_present (d : dict) (k : string) (v0 v : list string) :
  dict_get d k = Some v0 -> keys (dict_set d k v) = keys d.
Proof.
  induction d as [|[k' v'] d IH]; simpl; [discriminate|].
  destruct (String.eqb k k') eqn:E; simpl; intros H.
  - reflexivity.
  - now rewrite IH.
Qed.

Lemma dict_set_absent (d : dict) (k : string) (v : list string) :
  dict_get d k = None -> dict_set d k v = d ++ [(k, v)].
Proof.
  induction d as [|[k' v'] d IH]; simpl; [reflexivity|].
  destruct (String.eqb k k') eqn:E; [discriminate|].
  intros H. now rewrite IH.
Qed.

Lemma truthy_iff (s : string) : PyStr.truthy s = true <-> s <> "".
Proof. destruct s; simpl; split; congruence. Qed.

Lemma contains_false (xs : list string) (x : string) :
  PyStr.contains xs x = false <-> ~ In x xs.
Proof.
  rewrite <- contains_In. destruct (PyStr.contains xs x); split; congruence.
Qed.

Lemma count_occ_snoc_fresh (xs : list string) (x : string) :
  ~ In x xs -> count_occ string_dec (xs ++ [x]) x = 1.
Proof.
  intros H. rewrite count_occ_app.
  rewrite (proj1 (count_occ_not_In string_dec xs x) H). simpl.
  destruct (string_dec x x); congruence.
Qed.

(** C6: for an existing category, [add_keyword_to_category] trims the
    keyword; an empty or already listed keyword gives [False] and changes
    nothing; any other keyword is appended once to that category's list
    (the other categories and the key order stay), the dictionary is
    written to the file, and the result is [True]; a second call with the
    same keyword then gives [False] and the keyword occurs once. *)
Theorem C6_add_keyword :
  forall (w : world) (category keyword : string) (kws : list string),
    dict_get (categories w) category = Some kws ->
    let k := PyStr.strip keyword in
    ((k = "" \/ In k kws) ->
       add_keyword_to_category category keyword w = (Ok false, w))
    /\ (k <> "" -> ~ In k kws ->
        exists w',
          add_keyword_to_category category keyword w = (Ok true, w')
          /\ dict_get (categories w') category = Some (kws ++ [k])
          /\ (forall c, c <> category ->
                dict_get (categories w') c = dict_get (categories w) c)
          /\ keys (categories w') = keys (categories w)
          /\ disk w' = Some (Json.dumps (categories w'))
          /\ count_occ string_dec (kws ++ [k]) k = 1
          /\ add_keyword_to_category category keyword w' = (Ok false, w')).
Proof.
  intros w category keyword kws Hget k. split.
  - intros Hk. unfold add_keyword_to_category. fold k.
    destruct (PyStr.truthy k) eqn:Ht; [|reflexivity].
    unfold bind, get_categories. rewrite Hget.
    destruct Hk as [He | Hin].
    + apply truthy_iff in Ht. contradiction.
    + apply contains_In in Hin. now rewrite Hin.
  - intros Hne Hnin.
    exists (mkWorld (dict_set (categories w) category (kws ++ [k]))
              (Some (Json.dumps (dict_set (categories w) category (kws ++ [k]))))).
    simpl. repeat split.
    + unfold add_keyword_to_category. fold k.
      rewrite (proj2 (truthy_iff k) Hne).
      unfold bind, get_categories. rewrite Hget.
      rewrite (proj2 (contains_false kws k) Hnin). reflexivity.
    + apply dict_get_set_same.
    + intros c Hc. now apply dict_get_set_other.
    + now apply dict_set_present with (v0 := kws).
    + now apply count_occ_snoc_fresh.
    + unfold add_keyword_to_category. fold k.
      rewrite (proj2 (truthy_iff k) Hne).
      unfold bind, get_categories. cbn [categories].
      rewrite dict_get_set_same.
      assert (Hin : PyStr.contains (kws ++ [k]) k = true)
        by (apply contains_In, in_or_app; right; now left).
      now rewrite Hin.
Qed.

Lemma C6_add_keyword_witness :
  let w := mkWorld [(Uncategorized, []); ("Food", ["swiggy"])] None in
  dict_get (categories w) "Food" = Some ["swiggy"]
  /\ add_keyword_to_category "Food" " swiggy " w = (Ok false, w)
  /\ exists w',
       add_keyword_to_category "Food" "  Zomato " w = (Ok true, w')
       /\ dict_get (categories w') "Food" = Some ["swiggy"; "Zomato"]
       /\ add_keyword_to_category "Food" "  Zomato " w' = (Ok false, w').
Proof.
  intros w.
  assert (Hget : dict_get (categories w) "Food" = Some ["swiggy"]) by reflexivity.
  split; [exact Hget|]. split.
  - apply (proj1 (C6_add_keyword w "Food" " swiggy " ["swiggy"] Hget)).
    right. simpl. now left.
  - destruct (proj2 (C6_add_keyword w "Food" "  Zomato " ["swiggy"] Hget))
      as [w' [Hrun [Hnew [_ [_ [_ [_ Hagain]]]]]]].
    + discriminate.
    + simpl. intros [H | []]. discriminate H.
    + exists w'. repeat split; assumption.
Defined.

(** C7, as stated, fails: with a blank keyword the function returns
    [False] before it looks the category up. *)
Lemma C7_blank_keyword_does_not_fail : ~ unknown_category_always_fails.
Proof.
  intros H.
  destruct (H (mkWorld [(Uncategorized, [])] None) "Travel" "   " eq_refl)
    as [e He].
  vm_compute in He. discriminate He.
Qed.

(** C7, amended: for a category that is not in the store,
    [add_keyword_to_category] raises (a [KeyError]) when the trimmed
    keyword is not empty and returns [False] when it is empty; in both
    cases the dictionary and the file are unchanged. *)
Theorem C7_unknown_category :
  forall (w : world) (category keyword : string),
    dict_get (categories w) category = None ->
    (PyStr.strip keyword <> "" ->
       add_keyword_to_category category keyword w = (Raise (KeyError category), w))
    /\ (PyStr.strip keyword = "" ->
          add_keyword_to_category category keyword w = (Ok false, w)).
Proof.
  intros w category keyword Hget. unfold add_keyword_to_category. split; intros Hk.
  - rewrite (proj2 (truthy_iff _) Hk).
    unfold bind, get_categories. now rewrite Hget.
  - now rewrite Hk.
Qed.

Lemma C7_unknown_category_witness :
  let w := mkWorld [(Uncategorized, [])] None in
  add_keyword_to_category "Travel" " uber " w = (Raise (KeyError "Travel"), w)
  /\ add_keyword_to_category "Travel" "   " w = (Ok false, w).
Proof.
  intros w.
  destruct (C7_unknown_category w "Travel" " uber " eq_refl) as [H1 _].
  destruct (C7_unknown_category w "Travel" "   " eq_refl) as [_ H2].
  split; [apply H1; discriminate | apply H2; reflexivity].
Defined.

(** C9, as stated, fails: the button handler has no failure at all; on an
    empty name (and on a name already present) it does nothing. *)
Lemma C9_invalid_name_is_ignored : ~ invalid_name_fails.
Proof.
  intros H.
  destruct (H (mkWorld [(Uncategorized, [])] None) "" (or_introl eq_refl))
    as [e He].
  vm_compute in He. discriminate He.
Qed.

(** C9, amended: on an empty name or a name already in the store the
    handler raises nothing, changes nothing and does not rerun; on any
    other name it appends the name with an empty keyword list, writes the
    dictionary to the file and reruns; a second click with the same name
    then changes nothing, and the name is in the store once. *)
Theorem C9_add_category :
  forall (w : world) (name : string),
    ((name = "" \/ dict_mem (categories w) name = true) ->
       add_category true name w = (Ok false, w))
    /\ (name <> "" -> dict_mem (categories w) name = false ->
        exists w',
          add_category true name w = (Ok true, w')
          /\ categories w' = categories w ++ [(name, [])]
          /\ disk w' = Some (Json.dumps (categories w'))
          /\ count_occ string_dec (keys (categories w')) name = 1
          /\ add_category true name w' = (Ok false, w')).
Proof.
  intros w name. unfold add_category. cbn [andb]. split.
  - intros [He | Hmem].
    + now subst name.
    + destruct (PyStr.truthy name); [|reflexivity].
      unfold bind, get_categories. now rewrite Hmem.
  - intros Hne Hmem.
    assert (Hnone : dict_get (categories w) name = None)
      by (unfold dict_mem in Hmem; destruct (dict_get (categories w) name);
          [discriminate | reflexivity]).
    exists (mkWorld (categories w ++ [(name, [])])
              (Some (Json.dumps (categories w ++ [(name, [])])))).
    rewrite (proj2 (truthy_iff name) Hne). unfold bind, get_categories.
    rewrite Hmem. simpl negb. cbv iota.
    unfold put_categories, save_categories, bind, get_categories, write_file, ret.
    simpl. rewrite (dict_set_absent _ _ _ Hnone). repeat split.
    + unfold keys. rewrite map_app. simpl.
      apply count_occ_snoc_fresh. now apply dict_get_None.
    + assert (Hm : dict_mem (categories w ++ [(name, [])]) name = true).
      { unfold dict_mem. rewrite <- (dict_set_absent _ _ _ Hnone).
        now rewrite dict_get_set_same. }
      now rewrite Hm.
Qed.

Lemma C9_add_category_witness :
  let w := mkWorld [(Uncategorized, [])] None in
  add_category true "" w = (Ok false, w)
  /\ exists w',
       add_category true "Food" w = (Ok true, w')
       /\ categories w' = [(Uncategorized, []); ("Food", [])]
       /\ add_category true "Food" w' = (Ok false, w').
Proof.
  intros w. split.
  - apply (proj1 (C9_add_category w "")). now left.
  - destruct (proj2 (C9_add_category w "Food")) as [w' [Hrun [Hcats [_ [_ Hagain]]]]].
    + discriminate.
    + reflexivity.
    + exists w'. repeat split; assumption.
Defined.

(** ** The amount columns *)

Lemma remove_char_filter (old : ascii) (s : string) :
  list_ascii_of_string (PyStr.remove_char old s)
  = filter (fun c => negb (Ascii.eqb c old)) (list_ascii_of_string s).
Proof.
  induction s as [|c s IH]; simpl; [reflexivity|].
  destruct (Ascii.eqb c old); simpl; now rewrite IH.
Qed.

Lemma replace_with_0_cases (t : string) :
  (t = "" \/ t = "nan" \/ t = "NaN" -> replace_with_0 t = OInt 0)
  /\ (t <> "" -> t <> "nan" -> t <> "NaN" -> replace_with_0 t = OStr t).
Proof.
  unfold replace_with_0. split.
  - intros H. assert (Hin : In t [""; "nan"; "NaN"]) by (simpl; intuition).
    apply contains_In in Hin. now rewrite Hin.
  - intros H1 H2 H3.
    assert (Hnin : ~ In t [""; "nan"; "NaN"]) by (simpl; intuition).
    apply contains_false in Hnin. now rewrite Hnin.
Qed.

(** C2, as stated, fails: "NAN" is not in the list the loader replaces by
    0, and [float] reads it as the float NaN. *)
Lemma C2_upper_case_nan_is_not_zero : ~ nan_any_case_is_zero.
Proof.
  intros H. specialize (H "NAN" eq_refl).
  vm_compute in H. discriminate H.
Qed.

(** C2, amended: the clean-up removes every comma; when what remains is
    the empty string, "nan" or "NaN" (these spellings only) the amount is
    zero, and otherwise it is what [float] reads from the remainder; so
    "1,234.50" gives 1234.5, "" gives 0.0, "nan" gives 0.0 (and "NAN"
    gives the float NaN). *)
Theorem C2_clean_amount :
  forall s : string,
    let t := str_replace_comma s in
    list_ascii_of_string t
    = filter (fun c => negb (Ascii.eqb c ","%char)) (list_ascii_of_string s)
    /\ (t = "" \/ t = "nan" \/ t = "NaN" -> clean_amount (Text s) = Ok (Finite 0))
    /\ (t <> "" -> t <> "nan" -> t <> "NaN" ->
        clean_amount (Text s)
        = match PyFloat.parse t with
          | Some f => Ok f
          | None => Raise (ValueError t)
          end)
    /\ clean_amount (Text "1,234.50") = Ok (Finite (2469 # 2))
    /\ clean_amount (Text "") = Ok (Finite 0)
    /\ clean_amount (Text "nan") = Ok (Finite 0)
    /\ clean_amount (Text "NAN") = Ok NaN.
Proof.
  intros s t. split; [apply remove_char_filter|].
  unfold clean_amount. simpl astype_str. fold t.
  destruct (replace_with_0_cases t) as [Hzero Hother].
  split; [|split].
  - intros H. now rewrite (Hzero H).
  - intros H1 H2 H3. now rewrite (Hother H1 H2 H3).
  - repeat split; vm_compute; reflexivity.
Qed.

(** ** The file round trip *)

Lemma scan_escape_char (c : ascii) (rest : Json.chars) :
  Json.scanstring (Json.escape_char c ++ rest) = Json.push c (Json.scanstring rest).
Proof.
  destruct c as [[] [] [] [] [] [] [] []]; reflexivity.
Qed.

Lemma scan_encoded (s : Json.chars) (rest : Json.chars) :
  Json.scanstring (flat_map Json.escape_char s ++ Json.dquote :: rest)
  = Some (s, rest).
Proof.
  induction s as [|c s IH]; simpl flat_map.
  - reflexivity.
  - rewrite <- app_assoc, scan_escape_char, IH. reflexivity.
Qed.

Lemma scan_encode_string (s : string) (rest : Json.chars) :
  exists body,
    Json.encode_string s ++ rest = Json.dquote :: body
    /\ Json.scanstring body = Some (list_ascii_of_string s, rest).
Proof.
  exists (flat_map Json.escape_char (list_ascii_of_string s) ++ Json.dquote :: rest).
  split.
  - unfold Json.encode_string. simpl. now rewrite <- app_assoc.
  - apply scan_encoded.
Qed.

Lemma join_comma_cons (p : Json.chars) (q : Json.chars) (rest : list Json.chars) :
  Json.join_comma (p :: q :: rest)
  = p ++ ","%char :: " "%char :: Json.join_comma (q :: rest).
Proof. reflexivity. Qed.

Lemma join_comma_length (parts : list Json.chars) :
  Forall (fun p => 1 <= length p) parts ->
  length parts <= length (Json.join_comma parts).
Proof.
  induction parts as [|p [|q rest] IH]; intros H.
  - simpl. lia.
  - inversion H; subst. simpl. lia.
  - inversion H as [|? ? Hp Hrest]; subst.
    rewrite join_comma_cons, length_app. simpl length at 1.
    specialize (IH Hrest). simpl length at 3. simpl length in IH. lia.
Qed.

Lemma encode_string_length (s : string) : 1 <= length (Json.encode_string s).
Proof. unfold Json.encode_string. simpl. lia. Qed.

(** The elements of a written array are read back, given fuel for one
    step per element. *)
Lemma parse_elems_encoded (xs : list string) (x : string) (rest : Json.chars) (fuel : nat) :
  length (x :: xs) <= fuel ->
  Json.parse_elems fuel
    (Json.join_comma (map Json.encode_string (x :: xs)) ++ "]"%char :: rest)
  = Some (x :: xs, rest).
Proof.
  revert x fuel. induction xs as [|y xs IH]; intros x fuel Hfuel;
    (destruct fuel as [|fuel]; [simpl in Hfuel; lia|]).
  - simpl map. simpl Json.join_comma.
    destruct (scan_encode_string x ("]"%char :: rest)) as [body [Hbody Hscan]].
    rewrite Hbody. simpl. rewrite Hscan. simpl.
    now rewrite string_of_list_ascii_of_string.
  - simpl map. rewrite join_comma_cons, <- app_assoc.
    destruct (scan_encode_string x
                ((","%char :: " "%char
                  :: Json.join_comma (Json.encode_string y :: map Json.encode_string xs))
                 ++ "]"%char :: rest)) as [body [Hbody Hscan]].
    rewrite Hbody. simpl Json.parse_elems. rewrite Hscan. simpl.
    rewrite string_of_list_ascii_of_string.
    change (Json.encode_string y :: map Json.encode_string xs)
      with (map Json.encode_string (y :: xs)).
    assert (Hskip : forall l, Json.skip_ws
                      (Json.join_comma (map Json.encode_string (y :: xs)) ++ l)
                    = Json.join_comma (map Json.encode_string (y :: xs)) ++ l).
    { intros l. simpl map. destruct (map Json.encode_string xs); reflexivity. }
    rewrite Hskip, IH; [reflexivity | simpl in *; lia].
Qed.

Lemma parse_array_encoded (xs : list string) (rest : Json.chars) (fuel : nat) :
  length xs <= fuel ->
  Json.parse_array fuel
    (Json.join_comma (map Json.encode_string xs) ++ "]"%char :: rest)
  = Some (xs, rest).
Proof.
  intros Hfuel. destruct xs as [|x xs].
  - reflexivity.
  - rewrite <- (parse_elems_encoded xs x rest fuel Hfuel).
    unfold Json.parse_array. simpl map.
    destruct (map Json.encode_string xs); reflexivity.
Qed.

Lemma parse_encode_list (xs : list string) (rest : Json.chars) :
  exists body,
    Json.encode_list xs ++ rest = "["%char :: body
    /\ Json.parse_array (S (length body)) body = Some (xs, rest).
Proof.
  exists (Json.join_comma (map Json.encode_string xs) ++ "]"%char :: rest). split.
  - unfold Json.encode_list. simpl. now rewrite <- app_assoc.
  - apply parse_array_encoded. rewrite length_app.
    assert (H := join_comma_length (map Json.encode_string xs)).
    rewrite length_map in H.
    assert (length xs <= length (Json.join_comma (map Json.encode_string xs))).
    { apply H. apply Forall_forall. intros p Hp.
      apply in_map_iff in Hp. destruct Hp as [s [<- _]].
      apply encode_string_length. }
    lia.
Qed.

Lemma skip_ws_item (kv : string * list string) (l : Json.chars) :
  Json.skip_ws (Json.encode_item kv ++ l) = Json.encode_item kv ++ l.
Proof. reflexivity. Qed.

Lemma skip_ws_items (items : dict) (kv : string * list string) (l : Json.chars) :
  Json.skip_ws (Json.join_comma (map Json.encode_item (kv :: items)) ++ l)
  = Json.join_comma (map Json.encode_item (kv :: items)) ++ l.
Proof. simpl map. destruct (map Json.encode_item items); reflexivity. Qed.

#[local] Arguments Json.parse_array : simpl never.

(** One written member, followed by [tail], is read up to [tail]. *)
Lemma parse_member_step (fuel : nat) (kv : string * list string) (tail : Json.chars) :
  Json.parse_members (S fuel) (Json.encode_item kv ++ tail)
  = match Json.skip_ws tail with
    | c3 :: r5 =>
        if Ascii.eqb c3 "}"%char then Some ([kv], r5)
        else if Ascii.eqb c3 ","%char then
          match Json.parse_members fuel (Json.skip_ws r5) with
          | Some (more, r6) => Some (kv :: more, r6)
          | None => None
          end
        else None
    | [] => None
    end.
Proof.
  destruct kv as [k v]. unfold Json.encode_item. cbn [fst snd].
  rewrite <- app_assoc, <- !app_comm_cons.
  destruct (parse_encode_list v tail) as [lbody [Hl Hparse]].
  rewrite Hl.
  destruct (scan_encode_string k (":"%char :: " "%char :: "["%char :: lbody))
    as [body [Hbody Hscan]].
  rewrite Hbody. simpl Json.parse_members. rewrite Hscan. simpl.
  rewrite Hparse, string_of_list_ascii_of_string. reflexivity.
Qed.

Lemma parse_members_encoded (items : dict) (kv : string * list string)
  (rest : Json.chars) (fuel : nat) :
  length (kv :: items) <= fuel ->
  Json.parse_members fuel
    (Json.join_comma (map Json.encode_item (kv :: items)) ++ "}"%char :: rest)
  = Some (kv :: items, rest).
Proof.
  revert kv fuel. induction items as [|kv' items IH]; intros kv fuel Hfuel;
    (destruct fuel as [|fuel]; [simpl in Hfuel; lia|]).
  - simpl map. simpl Json.join_comma. rewrite parse_member_step. reflexivity.
  - simpl map. rewrite join_comma_cons, <- app_assoc, parse_member_step.
    change (Json.encode_item kv' :: map Json.encode_item items)
      with (map Json.encode_item (kv' :: items)).
    rewrite <- !app_comm_cons.
    assert (Hcomma : forall l, Json.skip_ws (","%char :: l) = ","%char :: l)
      by reflexivity.
    assert (Hsp : forall l, Json.skip_ws (" "%char :: l) = Json.skip_ws l)
      by reflexivity.
    rewrite Hcomma. cbv beta iota.
    change (Ascii.eqb ","%char "}"%char) with false.
    change (Ascii.eqb ","%char ","%char) with true. cbv iota.
    rewrite Hsp, skip_ws_items, IH; [reflexivity | simpl in *; lia].
Qed.

Lemma dict_of_pairs_from (pairs acc : dict) :
  NoDup (keys (acc ++ pairs)) ->
  fold_left (fun d kv => dict_set d (fst kv) (snd kv)) pairs acc = acc ++ pairs.
Proof.
  revert acc. induction pairs as [|[k v] pairs IH]; intros acc Hnd; simpl.
  - now rewrite app_nil_r.
  - assert (Hfresh : dict_get acc k = None).
    { apply dict_get_None. unfold keys in *. rewrite map_app in Hnd. simpl in Hnd.
      apply NoDup_remove_2 in Hnd. intros Hin. apply Hnd, in_or_app. now left. }
    rewrite (dict_set_absent _ _ _ Hfresh), IH.
    + now rewrite <- app_assoc.
    + now rewrite <- app_assoc.
Qed.

Lemma dict_of_pairs_well_formed (d : dict) :
  well_formed d -> Json.dict_of_pairs d = d.
Proof. intros H. exact (dict_of_pairs_from d [] H). Qed.

Lemma encode_item_length (kv : string * list string) :
  1 <= length (Json.encode_item kv).
Proof.
  unfold Json.encode_item. rewrite length_app.
  assert (H := encode_string_length (fst kv)). lia.
Qed.

Lemma parse_object_encoded (d : dict) :
  well_formed d ->
  Json.parse_object (Json.join_comma (map Json.encode_item d) ++ ["}"%char])
  = Some (d, []).
Proof.
  intros Hwf. unfold Json.parse_object. destruct d as [|kv items].
  - reflexivity.
  - rewrite skip_ws_items.
    assert (Hlen : length (kv :: items)
                   <= length (Json.join_comma (map Json.encode_item (kv :: items))
                              ++ ["}"%char])).
    { rewrite length_app.
      assert (H := join_comma_length (map Json.encode_item (kv :: items))).
      rewrite length_map in H.
      assert (length (kv :: items)
              <= length (Json.join_comma (map Json.encode_item (kv :: items)))).
      { apply H. apply Forall_forall. intros p Hp.
        apply in_map_iff in Hp. destruct Hp as [it [<- _]].
        apply encode_item_length. }
      lia. }
    assert (Hrun := fun fuel =>
              parse_members_encoded items kv [] fuel).
    destruct (Json.join_comma (map Json.encode_item (kv :: items)) ++ ["}"%char])
      as [|c r] eqn:Htext.
    + simpl in Hlen. lia.
    + assert (Hc : c = Json.dquote).
      { destruct kv as [k v]. simpl map in Htext.
        destruct (map Json.encode_item items); simpl in Htext;
          injection Htext as Hc _; now subst c. }
      subst c. change (Ascii.eqb Json.dquote "}"%char) with false. cbv iota.
      rewrite Hrun by (simpl length in *; lia).
      now rewrite (dict_of_pairs_well_formed _ Hwf).
Qed.

(** What [json.dump] writes for a dictionary, [json.load] reads back as
    that dictionary. *)
Lemma loads_dumps (d : dict) : well_formed d -> Json.loads (Json.dumps d) = Some d.
Proof.
  intros Hwf. unfold Json.loads, Json.dumps.
  rewrite list_ascii_of_string_of_list_ascii. unfold Json.encode_dict.
  assert (Hskip : forall l, Json.skip_ws ("{"%char :: l) = "{"%char :: l)
    by reflexivity.
  rewrite Hskip. change (Ascii.eqb "{"%char "{"%char) with true. cbv iota.
  now rewrite (parse_object_encoded d Hwf).
Qed.

Lemma startup_reads_file (fresh : bool) (w : world) (text : string) (d : dict) :
  disk w = Some text -> Json.loads text = Some d ->
  startup fresh w = (Ok tt, mkWorld d (Some text)).
Proof.
  intros Hdisk Hloads. unfold startup, bind, load_categories.
  destruct fresh; simpl; rewrite Hdisk, Hloads; unfold put_categories; simpl;
    now rewrite ?Hdisk.
Qed.

(** C4: the dictionary that [save_categories] writes is the one the start
    of the script (lines 12-21) loads from the file, in a new session or
    an old one and whatever the session holds by then: the same keys, in
    the same order, each with the same keyword list. *)
Theorem C4_save_then_load :
  forall w : world,
    well_formed (categories w) ->
    exists w1,
      save_categories w = (Ok tt, w1)
      /\ categories w1 = categories w
      /\ forall fresh w2, disk w2 = disk w1 ->
           exists w3, startup fresh w2 = (Ok tt, w3)
                      /\ categories w3 = categories w
                      /\ disk w3 = disk w1.
Proof.
  intros w Hwf.
  exists (mkWorld (categories w) (Some (Json.dumps (categories w)))).
  split; [reflexivity|]. split; [reflexivity|].
  intros fresh w2 Hdisk. simpl in Hdisk.
  exists (mkWorld (categories w) (Some (Json.dumps (categories w)))).
  split; [|split; reflexivity].
  exact (startup_reads_file fresh w2 _ _ Hdisk (loads_dumps _ Hwf)).
Qed.

Lemma C4_save_then_load_witness :
  let w := mkWorld [(Uncategorized, []); ("Food", ["swiggy"; "Zomato"])] None in
  well_formed (categories w)
  /\ exists w1,
       save_categories w = (Ok tt, w1)
       /\ categories w1 = categories w
       /\ forall fresh w2, disk w2 = disk w1 ->
            exists w3, startup fresh w2 = (Ok tt, w3)
                       /\ categories w3 = categories w
                       /\ disk w3 = disk w1.
Proof.
  intros w.
  assert (Hwf : well_formed (categories w)).
  { unfold well_formed. simpl. repeat constructor; simpl; intuition discriminate. }
  split; [exact Hwf|].
  exact (C4_save_then_load w Hwf).
Defined.

(** ** The summary tables *)

Lemma key_lt_trans (a b c : string) : key_lt a b -> key_lt b c -> key_lt a c.
Proof.
  unfold key_lt. intros H1 H2.
  apply String_as_OT.cmp_lt in H1. apply String_as_OT.cmp_lt in H2.
  apply String_as_OT.cmp_lt. exact (String_as_OT.lt_trans _ _ _ H1 H2).
Qed.

Lemma compare_refl (a : string) : String.compare a a = Eq.
Proof. now apply String_as_OT.cmp_eq. Qed.

Lemma key_lt_irrefl (a : string) : ~ key_lt a a.
Proof. unfold key_lt. rewrite compare_refl. discriminate. Qed.

Lemma key_gt_lt (a b : string) : String.compare a b = Gt -> key_lt b a.
Proof.
  unfold key_lt. intros H. rewrite String.compare_antisym, H. reflexivity.
Qed.

Lemma group_add_keys (gs : groups) (k : string) (v : pyfloat) (c : string) :
  In c (map fst (group_add gs k v)) <-> c = k \/ In c (map fst gs).
Proof.
  induction gs as [|[k' t] gs IH]; simpl.
  - intuition.
  - destruct (String.compare k k') eqn:E; simpl.
    + apply String.compare_eq_iff in E. subst k'. intuition.
    + intuition.
    + rewrite IH. intuition.
Qed.

Lemma group_add_sorted (gs : groups) (k : string) (v : pyfloat) :
  keys_sorted gs -> keys_sorted (group_add gs k v).
Proof.
  unfold keys_sorted. induction gs as [|[k' t] gs IH]; simpl; intros Hs.
  - repeat constructor.
  - inversion Hs as [|? ? Hrest Hall]; subst.
    destruct (String.compare k k') eqn:E; simpl.
    + assumption.
    + constructor; [assumption|]. constructor; [exact E|].
      eapply Forall_impl; [|exact Hall].
      intros c Hc. exact (key_lt_trans _ _ _ E Hc).
    + constructor; [now apply IH|].
      apply Forall_forall. intros c Hc. apply group_add_keys in Hc.
      destruct Hc as [-> | Hc].
      * now apply key_gt_lt.
      * rewrite Forall_forall in Hall. now apply Hall.
Qed.

Lemma keys_sorted_NoDup (gs : groups) : keys_sorted gs -> NoDup (map fst gs).
Proof.
  unfold keys_sorted. induction (map fst gs) as [|k ks IH]; intros Hs.
  - constructor.
  - inversion Hs as [|? ? Hrest Hall]; subst. constructor; [|now apply IH].
    intros Hin. rewrite Forall_forall in Hall.
    exact (key_lt_irrefl k (Hall k Hin)).
Qed.

Lemma total_of_absent (gs : groups) (c : string) :
  ~ In c (map fst gs) -> total_of gs c = None.
Proof.
  induction gs as [|[k t] gs IH]; simpl; intros H; [reflexivity|].
  destruct (String.eqb c k) eqn:E.
  - apply String.eqb_eq in E. subst k. tauto.
  - apply IH. tauto.
Qed.

Lemma total_of_group_add (gs : groups) (k : string) (v : pyfloat) (c : string) :
  keys_sorted gs ->
  total_of (group_add gs k v) c
  = if String.eqb c k then Some (nanadd (or_zero (total_of gs k)) v)
    else total_of gs c.
Proof.
  unfold keys_sorted. induction gs as [|[k' t] gs IH]; simpl; intros Hs.
  - destruct (String.eqb c k); reflexivity.
  - inversion Hs as [|? ? Hrest Hall]; subst.
    destruct (String.compare k k') eqn:E; simpl.
    + apply String.compare_eq_iff in E. subst k'.
      rewrite String.eqb_refl. destruct (String.eqb c k); reflexivity.
    + assert (Hne : String.eqb k k' = false).
      { apply String.eqb_neq. intros ->. rewrite compare_refl in E. discriminate. }
      rewrite Hne.
      assert (Habs : total_of gs k = None).
      { apply total_of_absent. intros Hin. rewrite Forall_forall in Hall.
        exact (key_lt_irrefl k (key_lt_trans _ _ _ E (Hall k Hin))). }
      rewrite Habs. destruct (String.eqb c k); reflexivity.
    + assert (Hne : String.eqb k k' = false).
      { apply String.eqb_neq. intros ->. rewrite compare_refl in E. discriminate. }
      rewrite Hne, (IH Hrest).
      destruct (String.eqb c k) eqn:Eck; [|reflexivity].
      apply String.eqb_eq in Eck. subst c. now rewrite Hne.
Qed.

Lemma total_of_fold (col : row -> pyfloat) (df : frame) (gs : groups) (c : string) :
  keys_sorted gs ->
  total_of (fold_left (fun gs r => group_add gs (Category r) (col r)) df gs) c
  = match total_of gs c, group_values col c df with
    | None, [] => None
    | t, vals => Some (fold_left nanadd vals (or_zero t))
    end.
Proof.
  revert gs. induction df as [|r df IH]; intros gs Hs; simpl.
  - unfold group_values. simpl. destruct (total_of gs c); reflexivity.
  - rewrite IH by now apply group_add_sorted.
    rewrite total_of_group_add by assumption.
    unfold group_values, in_group. simpl.
    rewrite (String.eqb_sym c (Category r)).
    destruct (String.eqb (Category r) c) eqn:E; simpl.
    + apply String.eqb_eq in E. subst c.
      destruct (total_of gs (Category r)); reflexivity.
    + reflexivity.
Qed.

Lemma total_of_In (gs : groups) (c : string) (t : pyfloat) :
  NoDup (map fst gs) -> In (c, t) gs -> total_of gs c = Some t.
Proof.
  induction gs as [|[k t'] gs IH]; simpl; intros Hnd Hin; [contradiction|].
  inversion Hnd as [|? ? Hk Hrest]; subst.
  destruct Hin as [Heq | Hin].
  - injection Heq as -> ->. now rewrite String.eqb_refl.
  - destruct (String.eqb c k) eqn:E.
    + apply String.eqb_eq in E. subst k. exfalso. apply Hk.
      apply in_map_iff. now exists (c, t).
    + now apply IH.
Qed.

Lemma groupby_sum_sorted (col : row -> pyfloat) (df : frame) :
  keys_sorted (groupby_sum col df).
Proof.
  unfold groupby_sum.
  assert (H : keys_sorted []) by constructor.
  revert H. generalize (@nil (string * pyfloat)).
  induction df as [|r df IH]; intros gs Hs; simpl; [assumption|].
  apply IH. now apply group_add_sorted.
Qed.

Lemma groupby_sum_keys (col : row -> pyfloat) (df : frame) (c : string) :
  In c (map fst (groupby_sum col df)) <-> In c (map Category df).
Proof.
  unfold groupby_sum.
  assert (H : forall gs,
             In c (map fst (fold_left (fun gs r => group_add gs (Category r) (col r)) df gs))
             <-> In c (map fst gs) \/ In c (map Category df)).
  { induction df as [|r df IH]; intros gs; simpl.
    - intuition.
    - rewrite IH, group_add_keys. intuition. }
  rewrite H. simpl. intuition.
Qed.

Lemma fge_finite (x y : Q) : fge (Finite x) (Finite y) = true <-> (y <= x)%Q.
Proof. simpl. apply Qle_bool_iff. Qed.

Lemma fge_total (a b : pyfloat) : fge a b = true \/ fge b a = true.
Proof.
  destruct a as [x|[]|], b as [y|[]|]; simpl; auto.
  rewrite !Qle_bool_iff.
  destruct (Qlt_le_dec x y) as [H | H]; [right; now apply Qlt_le_weak | now left].
Qed.

Lemma fge_trans (a b c : pyfloat) :
  fge a b = true -> fge b c = true -> fge a c = true.
Proof.
  destruct a as [x|[]|], b as [y|[]|], c as [z|[]|]; simpl;
    try reflexivity; try discriminate.
  rewrite !Qle_bool_iff. intros H1 H2. exact (Qle_trans _ _ _ H2 H1).
Qed.

Lemma insert_desc_perm (g : string * pyfloat) (gs : groups) :
  Permutation (insert_desc g gs) (g :: gs).
Proof.
  induction gs as [|h gs IH]; simpl.
  - apply Permutation_refl.
  - destruct (fge (snd h) (snd g)).
    + apply perm_trans with (h :: g :: gs); [now constructor | apply perm_swap].
    + apply Permutation_refl.
Qed.

Lemma insert_desc_sorted (g : string * pyfloat) (gs : groups) :
  StronglySorted before gs -> StronglySorted before (insert_desc g gs).
Proof.
  induction gs as [|h gs IH]; simpl; intros Hs.
  - repeat constructor.
  - inversion Hs as [|? ? Hrest Hall]; subst.
    destruct (fge (snd h) (snd g)) eqn:E.
    + constructor; [now apply IH|].
      apply Forall_forall. intros x Hx.
      apply (Permutation_in _ (insert_desc_perm g gs)) in Hx.
      destruct Hx as [<- | Hx]; [exact E|].
      rewrite Forall_forall in Hall. now apply Hall.
    + assert (Hgh : before g h).
      { unfold before. destruct (fge_total (snd g) (snd h)); congruence. }
      constructor; [assumption|]. constructor; [assumption|].
      eapply Forall_impl; [|exact Hall].
      intros x Hx. exact (fge_trans _ _ _ Hgh Hx).
Qed.

Lemma sort_values_desc_perm (gs : groups) : Permutation (sort_values_desc gs) gs.
Proof.
  induction gs as [|g gs IH]; simpl; [constructor|].
  apply perm_trans with (g :: sort_values_desc gs);
    [apply insert_desc_perm | now constructor].
Qed.

Lemma sort_values_desc_sorted (gs : groups) :
  StronglySorted before (sort_values_desc gs).
Proof.
  induction gs as [|g gs IH]; simpl; [constructor | now apply insert_desc_sorted].
Qed.

Lemma sorted_later (R : string * pyfloat -> string * pyfloat -> Prop)
  (pre : groups) (a : string * pyfloat) (l : groups) :
  StronglySorted R (pre ++ a :: l) -> Forall (R a) l.
Proof.
  induction pre as [|p pre IH]; simpl; intros Hs;
    inversion Hs; subst; [assumption | now apply IH].
Qed.

(** C8: the summary has one line per category of the table; a line's total
    is the sum, in row order and from zero, of the chosen column over the
    rows of that category; and the lines stand by decreasing total (a
    finite total is not below any finite total after it).  Rows with 100
    and 50 in "Food" and 30 in "Transport" give
    [("Food", 150); ("Transport", 30)]. *)
Theorem C8_category_totals :
  forall (col : row -> pyfloat) (df : frame),
    let out := category_totals col df in
    StronglySorted (fun a b => fge (snd a) (snd b) = true) out
    /\ (forall pre c1 x mid c2 y post,
          out = pre ++ (c1, Finite x) :: mid ++ (c2, Finite y) :: post ->
          (y <= x)%Q)
    /\ NoDup (map fst out)
    /\ (forall c, In c (map fst out) <-> In c (map Category df))
    /\ (forall c t, In (c, t) out ->
          t = fold_left nanadd
                (map col (filter (fun r => String.eqb (Category r) c) df))
                (Finite 0))
    /\ category_totals Withdrawal_Amt
         [mkRow "01/04/23" "zomato" (Finite 100) (Finite 0) "Food";
          mkRow "02/04/23" "uber" (Finite 30) (Finite 0) "Transport";
          mkRow "03/04/23" "swiggy" (Finite 50) (Finite 0) "Food"]
       = [("Food", Finite 150); ("Transport", Finite 30)].
Proof.
  intros col df out. unfold out, category_totals.
  assert (Hperm := sort_values_desc_perm (groupby_sum col df)).
  assert (Hnd : NoDup (map fst (groupby_sum col df)))
    by apply keys_sorted_NoDup, groupby_sum_sorted.
  split; [apply sort_values_desc_sorted|].
  split; [|split; [|split; [|split]]].
  - intros pre c1 x mid c2 y post Hout.
    assert (Hs := sort_values_desc_sorted (groupby_sum col df)).
    rewrite Hout in Hs. apply sorted_later in Hs.
    rewrite Forall_forall in Hs.
    apply (fge_finite x y).
    apply (Hs (c2, Finite y)), in_or_app. right. now left.
  - eapply Permutation_NoDup; [|exact Hnd].
    apply Permutation_map, Permutation_sym, Hperm.
  - intros c. rewrite <- (groupby_sum_keys col df c). split; apply Permutation_in.
    + apply Permutation_map, Hperm.
    + apply Permutation_map, Permutation_sym, Hperm.
  - intros c t Hin. apply (Permutation_in _ Hperm) in Hin.
    assert (Htot := total_of_In _ _ _ Hnd Hin).
    unfold groupby_sum in Htot.
    rewrite total_of_fold in Htot by constructor. simpl total_of in Htot.
    unfold group_values, in_group in Htot.
    destruct (map col (filter (fun r => String.eqb (Category r) c) df));
      [discriminate | injection Htot as <-; reflexivity].
  - reflexivity.
Qed.

(** * Further properties of the script *)

(** ** Cleaning a narration or a keyword *)

Lemma isspace_lower_char (c : ascii) :
  PyStr.isspace (PyStr.lower_char c) = PyStr.isspace c.
Proof. destruct c as [[] [] [] [] [] [] [] []]; reflexivity. Qed.

Lemma lower_lstrip (s : string) :
  PyStr.lower (PyStr.lstrip s) = PyStr.lstrip (PyStr.lower s).
Proof.
  induction s as [|c s IH]; simpl; [reflexivity|].
  rewrite isspace_lower_char. destruct (PyStr.isspace c); [exact IH | reflexivity].
Qed.

Lemma lower_rstrip (s : string) :
  PyStr.lower (PyStr.rstrip s) = PyStr.rstrip (PyStr.lower s).
Proof.
  induction s as [|c s IH]; simpl; [reflexivity|].
  rewrite <- IH, isspace_lower_char.
  destruct (PyStr.rstrip s); simpl; [destruct (PyStr.isspace c)|]; reflexivity.
Qed.

Lemma lower_strip (s : string) :
  PyStr.lower (PyStr.strip s) = PyStr.strip (PyStr.lower s).
Proof. unfold PyStr.strip. now rewrite lower_rstrip, lower_lstrip. Qed.

Lemma rstrip_idem (s : string) : PyStr.rstrip (PyStr.rstrip s) = PyStr.rstrip s.
Proof.
  assert (Hstep : forall c u,
             PyStr.rstrip (String c u)
             = match PyStr.rstrip u with
               | EmptyString =>
                   if PyStr.isspace c then EmptyString else String c EmptyString
               | r' => String c r'
               end) by reflexivity.
  induction s as [|c s IH]; [reflexivity|].
  rewrite (Hstep c s).
  destruct (PyStr.rstrip s) as [|a t] eqn:E.
  - destruct (PyStr.isspace c) eqn:Ec; [reflexivity|].
    rewrite Hstep. simpl. now rewrite Ec.
  - rewrite Hstep, IH. reflexivity.
Qed.

Lemma lstrip_starts_clean (s : string) : starts_clean (PyStr.lstrip s).
Proof.
  induction s as [|c s IH]; simpl; [exact I|].
  destruct (PyStr.isspace c) eqn:E; [exact IH | exact E].
Qed.

Lemma rstrip_starts_clean (s : string) :
  starts_clean s -> starts_clean (PyStr.rstrip s).
Proof.
  destruct s as [|c s]; simpl; [trivial|]. intros Hc.
  destruct (PyStr.rstrip s); [rewrite Hc|]; exact Hc.
Qed.

Lemma lstrip_clean_start (s : string) : starts_clean s -> PyStr.lstrip s = s.
Proof. destruct s as [|c s]; simpl; [trivial|]. now intros ->. Qed.

Lemma strip_idem (s : string) : PyStr.strip (PyStr.strip s) = PyStr.strip s.
Proof.
  unfold PyStr.strip.
  rewrite (lstrip_clean_start (PyStr.rstrip (PyStr.lstrip s))).
  - apply rstrip_idem.
  - apply rstrip_starts_clean, lstrip_starts_clean.
Qed.

(** Trimming first, as [add_keyword_to_category] does before it stores a
    keyword, does not change the cleaned form. *)
Lemma clean_strip (s : string) : clean (PyStr.strip s) = clean s.
Proof. unfold clean. now rewrite lower_strip, strip_idem. Qed.

(** ** More on [categorize_transactions] *)

Lemma hits_narration (item : string * list string) (r1 r2 : row) :
  clean (Narration r1) = clean (Narration r2) -> hits item r1 = hits item r2.
Proof. intros H. unfold hits. now rewrite H. Qed.

Lemma relabel_narration (cats : dict) (r1 r2 : row) (c : string) :
  clean (Narration r1) = clean (Narration r2) ->
  relabel cats r1 c = relabel cats r2 c.
Proof.
  intros H. revert c. induction cats as [|item cats IH]; intros c; simpl.
  - reflexivity.
  - rewrite (hits_narration item r1 r2 H). apply IH.
Qed.

Lemma categorized_map (cats : dict) (f : row -> string) (df : frame) :
  map (fun r => set_Category r (relabel cats r Uncategorized))
      (map (fun r => set_Category r (f r)) df)
  = map (fun r => set_Category r (relabel cats r Uncategorized)) df.
Proof.
  rewrite map_map. apply map_ext. intros r.
  rewrite (relabel_narration cats (set_Category r (f r)) r) by reflexivity.
  reflexivity.
Qed.

(** X1: [categorize_transactions] does not read the categories the rows
    come with: relabelling the input in any way gives the same output, and
    running it on its own output changes nothing. *)
Theorem categorize_forgets_labels :
  forall (w : world) (df : frame),
  exists df',
    categorize_transactions df w = (Ok df', w)
    /\ categorize_transactions df' w = (Ok df', w)
    /\ forall f : row -> string,
         categorize_transactions (map (fun r => set_Category r (f r)) df) w
         = (Ok df', w).
Proof.
  intros w df. eexists. split; [apply categorize_transactions_run|]. split.
  - rewrite categorize_transactions_run.
    now rewrite (categorized_map (categories w)
                   (fun r => relabel (categories w) r Uncategorized) df).
  - intros f. rewrite categorize_transactions_run.
    now rewrite categorized_map.
Qed.

(** X2: in one run, two rows whose narrations have the same lower-cased,
    trimmed form end in the same category. *)
Theorem same_narration_same_category :
  forall (w : world) (df : frame),
  exists df',
    categorize_transactions df w = (Ok df', w)
    /\ forall i j r1 r2,
         nth_error df' i = Some r1 -> nth_error df' j = Some r2 ->
         PyStr.strip (PyStr.lower (Narration r1))
         = PyStr.strip (PyStr.lower (Narration r2)) ->
         Category r1 = Category r2.
Proof.
  intros w df. eexists. split; [apply categorize_transactions_run|].
  intros i j r1 r2 H1 H2 Hn.
  rewrite nth_error_map in H1, H2.
  destruct (nth_error df i) as [a|]; [|discriminate].
  destruct (nth_error df j) as [b|]; [|discriminate].
  injection H1 as <-. injection H2 as <-. simpl in *.
  now apply relabel_narration.
Qed.

(** X3: when every category of the store is "Uncategorized" or has no
    keyword (as in the store a first start sets up), every row ends
    "Uncategorized". *)
Theorem nothing_to_match_all_uncategorized :
  forall (w : world) (df : frame),
    (forall c kws, In (c, kws) (categories w) -> c = Uncategorized \/ kws = []) ->
    categorize_transactions df w
    = (Ok (map (fun r => set_Category r Uncategorized) df), w).
Proof.
  intros w df H. rewrite categorize_transactions_run. do 2 f_equal.
  apply map_ext. intros r. f_equal. apply relabel_no_hit.
  intros [c kws] Hin. unfold hits, skipped. cbn [fst snd].
  destruct (H c kws Hin) as [-> | ->].
  - now rewrite String.eqb_refl.
  - cbn [PyStr.is_empty]. now rewrite orb_true_r.
Qed.

Lemma nothing_to_match_all_uncategorized_witness :
  categorize_transactions
    [mkRow "01/04/23" "Netflix" (Finite 500) (Finite 0) "Fun"]
    (mkWorld [(Uncategorized, ["netflix"]); ("Fun", [])] None)
  = (Ok [mkRow "01/04/23" "Netflix" (Finite 500) (Finite 0) Uncategorized],
     mkWorld [(Uncategorized, ["netflix"]); ("Fun", [])] None).
Proof.
  apply (nothing_to_match_all_uncategorized
           (mkWorld [(Uncategorized, ["netflix"]); ("Fun", [])] None)
           [mkRow "01/04/23" "Netflix" (Finite 500) (Finite 0) "Fun"]).
  simpl. intros c kws [H | [H | []]]; injection H as <- <-; auto.
Defined.

Lemma relabel_dict_set_unhit (d : dict) (k : string) (v : list string)
  (r : row) (c : string) :
  hits (k, v) r = false ->
  (forall old, dict_get d k = Some old -> hits (k, old) r = false) ->
  relabel (dict_set d k v) r c = relabel d r c.
Proof.
  intros Hnew. revert c. induction d as [|[k' v'] d IH]; intros c Hold; simpl.
  - now rewrite Hnew.
  - simpl in Hold. destruct (String.eqb k k') eqn:E; simpl.
    + apply String.eqb_eq in E. subst k'.
      now rewrite Hnew, (Hold v' eq_refl).
    + destruct (hits (k', v') r); apply IH; exact Hold.
Qed.

Lemma hits_Uncategorized (kws : list string) (r : row) :
  hits (Uncategorized, kws) r = false.
Proof. unfold hits, skipped. cbn [fst snd]. now rewrite String.eqb_refl. Qed.

Lemma categorize_same_relabel (w1 w2 : world) (df : frame) :
  (forall r c, relabel (categories w1) r c = relabel (categories w2) r c) ->
  fst (categorize_transactions df w1) = fst (categorize_transactions df w2).
Proof.
  intros H. rewrite !categorize_transactions_run. simpl. f_equal.
  apply map_ext. intros r. now rewrite H.
Qed.

(** X4: neither a click on "Add Category" nor a keyword added to
    "Uncategorized" changes how any table is categorized: a category
    without keywords and the keywords of "Uncategorized" are never
    matched. *)
Theorem unmatched_additions_change_nothing :
  forall (w : world) (df : frame),
    (forall button name,
       fst (categorize_transactions df (snd (add_category button name w)))
       = fst (categorize_transactions df w))
    /\ (forall keyword,
          fst (categorize_transactions df
                 (snd (add_keyword_to_category Uncategorized keyword w)))
          = fst (categorize_transactions df w)).
Proof.
  intros w df. split.
  - intros button name. apply categorize_same_relabel. intros r c.
    unfold add_category.
    destruct (button && PyStr.truthy name); [|reflexivity].
    unfold bind, get_categories.
    destruct (dict_mem (categories w) name) eqn:Hm; [reflexivity|].
    simpl. apply relabel_dict_set_unhit.
    + unfold hits, skipped. cbn [fst snd PyStr.is_empty]. now rewrite orb_true_r.
    + intros old Hold. unfold dict_mem in Hm. now rewrite Hold in Hm.
  - intros keyword. apply categorize_same_relabel. intros r c.
    unfold add_keyword_to_category.
    destruct (PyStr.truthy (PyStr.strip keyword)); [|reflexivity].
    unfold bind, get_categories.
    destruct (dict_get (categories w) Uncategorized) as [kws|]; [|reflexivity].
    destruct (PyStr.contains kws (PyStr.strip keyword)); [reflexivity|].
    simpl. apply relabel_dict_set_unhit.
    + apply hits_Uncategorized.
    + intros old _. apply hits_Uncategorized.
Qed.

Lemma dict_get_split (pre post : dict) (c : string) (kws : list string) :
  ~ In c (keys pre) -> dict_get (pre ++ (c, kws) :: post) c = Some kws.
Proof.
  induction pre as [|[k v] pre IH]; simpl; intros H.
  - now rewrite String.eqb_refl.
  - destruct (String.eqb c k) eqn:E.
    + apply String.eqb_eq in E. subst k. tauto.
    + apply IH. tauto.
Qed.

Lemma dict_set_split (pre post : dict) (c : string) (kws v : list string) :
  ~ In c (keys pre) ->
  dict_set (pre ++ (c, kws) :: post) c v = pre ++ (c, v) :: post.
Proof.
  induction pre as [|[k v'] pre IH]; simpl; intros H.
  - now rewrite String.eqb_refl.
  - destruct (String.eqb c k) eqn:E.
    + apply String.eqb_eq in E. subst k. tauto.
    + rewrite IH; [reflexivity | tauto].
Qed.

(** What [add_keyword_to_category] leaves in the store for a category it
    finds and a keyword that is not blank: the same items, with the trimmed
    keyword in the list of that category. *)
Lemma add_keyword_outcome (w : world) (c n : string) (pre post : dict)
  (kws : list string) :
  categories w = pre ++ (c, kws) :: post ->
  ~ In c (keys pre) ->
  PyStr.strip n <> "" ->
  exists b kws',
    fst (add_keyword_to_category c n w) = Ok b
    /\ categories (snd (add_keyword_to_category c n w)) = pre ++ (c, kws') :: post
    /\ In (PyStr.strip n) kws'.
Proof.
  intros Hcats Hpre Hk. unfold add_keyword_to_category.
  rewrite (proj2 (truthy_iff _) Hk). unfold bind, get_categories.
  rewrite Hcats, (dict_get_split pre post c kws Hpre).
  destruct (PyStr.contains kws (PyStr.strip n)) eqn:E; simpl.
  - exists false, kws. repeat split; [exact Hcats | now apply contains_In].
  - exists true, (kws ++ [PyStr.strip n]). repeat split.
    + now apply dict_set_split.
    + apply in_or_app. right. now left.
Qed.

(** X5: learning by example.  Once [add_keyword_to_category] has been
    called for a category of the store other than "Uncategorized" with a
    narration that is not blank, every later categorization gives a row
    whose narration cleans to the same text a category of its own, and
    gives it that very category unless a category stored after it matches
    too. *)
Theorem learned_narration_is_categorized :
  forall (w : world) (c n : string) (pre post : dict) (kws : list string),
    categories w = pre ++ (c, kws) :: post ->
    ~ In c (keys pre) ->
    c <> Uncategorized ->
    PyStr.strip n <> "" ->
    exists b w',
      add_keyword_to_category c n w = (Ok b, w')
      /\ forall df i r,
           nth_error df i = Some r ->
           PyStr.strip (PyStr.lower (Narration r)) = PyStr.strip (PyStr.lower n) ->
           exists df' r',
             categorize_transactions df w' = (Ok df', w')
             /\ nth_error df' i = Some r'
             /\ Category r' <> Uncategorized
             /\ ((forall c' kws' k', In (c', kws') post -> c' <> Uncategorized ->
                    In k' kws' ->
                    PyStr.strip (PyStr.lower k')
                    <> PyStr.strip (PyStr.lower (Narration r))) ->
                 Category r' = c).
Proof.
  intros w c n pre post kws Hcats Hpre Hc Hk.
  destruct (add_keyword_outcome w c n pre post kws Hcats Hpre Hk)
    as [b [kws' [Hres [Hcats' Hin]]]].
  exists b, (snd (add_keyword_to_category c n w)). split.
  - rewrite <- Hres. now destruct (add_keyword_to_category c n w).
  - intros df i r Hnth Hn.
    set (w' := snd (add_keyword_to_category c n w)) in *.
    assert (Hhit : hits (c, kws') r = true).
    { apply hits_iff. split; [exact Hc|]. exists (PyStr.strip n).
      split; [exact Hin|]. rewrite clean_strip. unfold clean. now rewrite Hn. }
    eexists. exists (set_Category r (relabel (categories w') r Uncategorized)).
    split; [apply categorize_transactions_run|].
    split; [exact (nth_error_categorized df
                     (fun r => relabel (categories w') r Uncategorized) i r Hnth)|].
    simpl. rewrite Hcats'. split.
    + apply (relabel_hit_named _ (c, kws')); [|exact Hhit].
      apply in_or_app. right. now left.
    + intros Hpost. apply (relabel_last_hit pre post (c, kws')); [exact Hhit|].
      intros [c' kws''] Hin'.
      destruct (hits (c', kws'') r) eqn:Hh; [|reflexivity].
      apply hits_iff in Hh. destruct Hh as [Hc' [k' [Hk' Heq]]].
      exfalso. exact (Hpost c' kws'' k' Hin' Hc' Hk' Heq).
Qed.

Lemma learned_narration_is_categorized_witness :
  exists b w',
    add_keyword_to_category "Food" " Swiggy Order "
      (mkWorld [(Uncategorized, []); ("Food", []); ("Rent", ["landlord"])] None)
    = (Ok b, w')
    /\ forall df i r,
         nth_error df i = Some r ->
         PyStr.strip (PyStr.lower (Narration r))
         = PyStr.strip (PyStr.lower " Swiggy Order ") ->
         exists df' r',
           categorize_transactions df w' = (Ok df', w')
           /\ nth_error df' i = Some r'
           /\ Category r' <> Uncategorized
           /\ ((forall c' kws' k', In (c', kws') [("Rent", ["landlord"])] ->
                  c' <> Uncategorized -> In k' kws' ->
                  PyStr.strip (PyStr.lower k')
                  <> PyStr.strip (PyStr.lower (Narration r))) ->
               Category r' = "Food").
Proof.
  apply (learned_narration_is_categorized
           (mkWorld [(Uncategorized, []); ("Food", []); ("Rent", ["landlord"])] None)
           "Food" " Swiggy Order " [(Uncategorized, [])] [("Rent", ["landlord"])] []).
  - reflexivity.
  - simpl. intros [H | []]. discriminate H.
  - discriminate.
  - discriminate.
Defined.





(** ** The store across a session *)

Lemma keys_dict_set (d : dict) (k : string) (v : list string) :
  keys (dict_set d k v) = if dict_mem d k then keys d else keys d ++ [k].
Proof.
  unfold dict_mem. destruct (dict_get d k) as [v0|] eqn:E.
  - now apply dict_set_present with (v0 := v0).
  - rewrite (dict_set_absent _ _ _ E). unfold keys. now rewrite map_app.
Qed.

Lemma dict_set_well_formed (d : dict) (k : string) (v : list string) :
  well_formed d -> well_formed (dict_set d k v).
Proof.
  unfold well_formed. rewrite keys_dict_set. unfold dict_mem.
  destruct (dict_get d k) eqn:E; intros H; [exact H|].
  apply dict_get_None in E.
  apply NoDup_rev in H. rewrite <- (rev_involutive (keys d ++ [k])).
  apply NoDup_rev. rewrite rev_app_distr. simpl. constructor; [|exact H].
  now rewrite <- in_rev.
Qed.

Lemma dict_of_pairs_keys_distinct (pairs : list (string * list string)) :
  well_formed (Json.dict_of_pairs pairs).
Proof.
  unfold Json.dict_of_pairs.
  assert (H : well_formed []) by constructor.
  revert H. generalize (@nil (string * list string)).
  induction pairs as [|kv pairs IH]; intros acc Hacc; simpl; [exact Hacc|].
  apply IH. now apply dict_set_well_formed.
Qed.

Lemma loads_shape (text : string) (d : dict) :
  Json.loads text = Some d -> exists pairs, d = Json.dict_of_pairs pairs.
Proof.
  unfold Json.loads.
  destruct (Json.skip_ws (list_ascii_of_string text)) as [|c r]; [discriminate|].
  destruct (Ascii.eqb c "{"%char); [|discriminate].
  unfold Json.parse_object.
  destruct (Json.skip_ws r) as [|c' r']; [discriminate|].
  destruct (Ascii.eqb c' "}"%char).
  - destruct (Json.skip_ws r'); [|discriminate].
    intros H. injection H as <-. now exists [].
  - destruct (Json.parse_members (S (length r')) (c' :: r')) as [[pairs rest]|];
      [|discriminate].
    destruct (Json.skip_ws rest); [|discriminate].
    intros H. injection H as <-. now exists pairs.
Qed.

(** X7: whatever text [categories.json] holds, a dictionary that
    [json.load] gives for it has no key twice. *)
Theorem loaded_keys_are_distinct :
  forall (text : string) (d : dict),
    Json.loads text = Some d -> well_formed d.
Proof.
  intros text d H. destruct (loads_shape text d H) as [pairs ->].
  apply dict_of_pairs_keys_distinct.
Qed.

Lemma loaded_keys_are_distinct_witness :
  well_formed [("Food", ["b"]); ("Rent", [])].
Proof.
  apply (loaded_keys_are_distinct
           ("{" ++ String Json.dquote "Food" ++ String Json.dquote ": ["
            ++ String Json.dquote "a" ++ String Json.dquote "], "
            ++ String Json.dquote "Rent" ++ String Json.dquote ":[],  "
            ++ String Json.dquote "Food" ++ String Json.dquote ": ["
            ++ String Json.dquote "b" ++ String Json.dquote "]} ")%string).
  reflexivity.
Defined.

Lemma escape_char_printable (c : ascii) :
  forallb printable (Json.escape_char c) = true.
Proof. destruct c as [[] [] [] [] [] [] [] []]; reflexivity. Qed.

Lemma forallb_flat_map {A B} (p : B -> bool) (f : A -> list B) (xs : list A) :
  (forall x, forallb p (f x) = true) -> forallb p (flat_map f xs) = true.
Proof.
  intros H. induction xs as [|x xs IH]; simpl; [reflexivity|].
  now rewrite forallb_app, H, IH.
Qed.

Lemma join_comma_printable (parts : list Json.chars) :
  (forall p, In p parts -> forallb printable p = true) ->
  forallb printable (Json.join_comma parts) = true.
Proof.
  induction parts as [|p [|q rest] IH]; intros H.
  - reflexivity.
  - simpl. apply H. now left.
  - rewrite join_comma_cons, forallb_app. cbn [forallb].
    rewrite (H p (or_introl eq_refl)).
    rewrite IH by (intros x Hx; apply H; now right). reflexivity.
Qed.

Lemma encode_string_printable (s : string) :
  forallb printable (Json.encode_string s) = true.
Proof.
  unfold Json.encode_string. simpl. rewrite forallb_app.
  rewrite (forallb_flat_map printable Json.escape_char _ escape_char_printable).
  reflexivity.
Qed.

Lemma encode_list_printable (xs : list string) :
  forallb printable (Json.encode_list xs) = true.
Proof.
  unfold Json.encode_list. simpl. rewrite forallb_app, join_comma_printable.
  - reflexivity.
  - intros p Hp. apply in_map_iff in Hp. destruct Hp as [s [<- _]].
    apply encode_string_printable.
Qed.

(** X8: the file [save_categories] writes is one line of printable ASCII:
    every character of the text is between the space and the tilde,
    whatever the names and keywords contain. *)
Theorem saved_file_is_printable_ascii :
  forall w : world,
  exists text,
    disk (snd (save_categories w)) = Some text
    /\ forallb printable (list_ascii_of_string text) = true.
Proof.
  intros w. exists (Json.dumps (categories w)). split; [reflexivity|].
  unfold Json.dumps. rewrite list_ascii_of_string_of_list_ascii.
  unfold Json.encode_dict. simpl. rewrite forallb_app, join_comma_printable.
  - reflexivity.
  - intros p Hp. apply in_map_iff in Hp. destruct Hp as [kv [<- _]].
    unfold Json.encode_item. rewrite forallb_app, encode_string_printable.
    simpl. apply encode_list_printable.
Qed.

Lemma grows_refl (d : dict) : grows d d.
Proof.
  split.
  - exists []. now rewrite app_nil_r.
  - intros c kws H. exists []. now rewrite app_nil_r.
Qed.

Lemma grows_trans (d1 d2 d3 : dict) : grows d1 d2 -> grows d2 d3 -> grows d1 d3.
Proof.
  intros [[m1 K1] G1] [[m2 K2] G2]. split.
  - exists (m1 ++ m2). now rewrite K2, K1, app_assoc.
  - intros c kws H. destruct (G1 c kws H) as [a Ha].
    destruct (G2 c _ Ha) as [b Hb]. exists (a ++ b). now rewrite Hb, app_assoc.
Qed.

Lemma grows_new_key (d : dict) (k : string) :
  dict_get d k = None -> grows d (dict_set d k []).
Proof.
  intros Hk. split.
  - exists [k]. rewrite keys_dict_set. unfold dict_mem. now rewrite Hk.
  - intros c kws H. exists []. rewrite app_nil_r.
    rewrite dict_get_set_other; [exact H|]. intros ->. congruence.
Qed.

Lemma grows_new_keyword (d : dict) (k x : string) (kws : list string) :
  dict_get d k = Some kws -> grows d (dict_set d k (kws ++ [x])).
Proof.
  intros Hk. split.
  - exists []. rewrite app_nil_r. now apply dict_set_present with (v0 := kws).
  - intros c kws0 H. destruct (string_dec c k) as [-> | Hne].
    + rewrite Hk in H. injection H as <-. exists [x]. apply dict_get_set_same.
    + exists []. rewrite app_nil_r. now rewrite dict_get_set_other.
Qed.

Lemma store_ok_saved (d : dict) :
  well_formed d -> store_ok (mkWorld d (Some (Json.dumps d))).
Proof.
  intros H. split; [exact H|]. simpl. intros text E. injection E as <-.
  now apply loads_dumps.
Qed.

Lemma run_action_keeps (a : action) (w : world) :
  store_ok w ->
  store_ok (run_action a w) /\ grows (categories w) (categories (run_action a w)).
Proof.
  intros Hok.
  assert (Hsame : store_ok w /\ grows (categories w) (categories w))
    by (split; [exact Hok | apply grows_refl]).
  destruct Hok as [Hwf Hfile]. destruct a as [|b name|c k|df]; simpl.
  - (* a rerun reads back what the file holds *)
    unfold startup, bind, ret, load_categories.
    destruct (disk w) as [text|] eqn:Hd; [|exact Hsame].
    rewrite (Hfile text eq_refl). simpl. rewrite Hd. split.
    + split; [exact Hwf|]. simpl. intros t E. injection E as <-.
      exact (Hfile text eq_refl).
    + apply grows_refl.
  - unfold add_category.
    destruct (b && PyStr.truthy name); [|exact Hsame].
    unfold bind, get_categories, dict_mem.
    destruct (dict_get (categories w) name) eqn:Hg; simpl; [exact Hsame|].
    split; [apply store_ok_saved, dict_set_well_formed, Hwf|].
    now apply grows_new_key.
  - unfold add_keyword_to_category.
    destruct (PyStr.truthy (PyStr.strip k)); [|exact Hsame].
    unfold bind, get_categories.
    destruct (dict_get (categories w) c) as [kws|] eqn:Hg; [|exact Hsame].
    destruct (PyStr.contains kws (PyStr.strip k)); simpl; [exact Hsame|].
    split; [apply store_ok_saved, dict_set_well_formed, Hwf|].
    now apply grows_new_keyword.
  - rewrite categorize_transactions_run. exact Hsame.
Qed.

(** X9: the session and the file stay in step, and nothing is ever
    removed.  From a state where the keys are distinct and the file, if
    there is one, loads to the session's dictionary, any sequence of
    reruns, "Add Category" clicks, [add_keyword_to_category] calls (failed
    ones too) and categorizations leads to such a state again; every key
    is still there, at its place, and every keyword list has only grown at
    its end. *)
Theorem store_stays_in_step :
  forall (acts : list action) (w : world),
    store_ok w ->
    store_ok (run_actions acts w)
    /\ grows (categories w) (categories (run_actions acts w)).
Proof.
  unfold run_actions.
  induction acts as [|a acts IH]; intros w Hok; simpl.
  - split; [exact Hok | apply grows_refl].
  - destruct (run_action_keeps a w Hok) as [Hok' Hg].
    destruct (IH _ Hok') as [Hok'' Hg'].
    split; [exact Hok'' | exact (grows_trans _ _ _ Hg Hg')].
Qed.

Lemma store_stays_in_step_witness :
  let w := mkWorld [(Uncategorized, [])] None in
  let acts := [AddCategory true "Food"; AddKeyword "Food" " swiggy ";
               AddKeyword "Travel" "uber"; Rerun; AddCategory true "Food"] in
  store_ok w
  /\ store_ok (run_actions acts w)
  /\ grows (categories w) (categories (run_actions acts w))
  /\ categories (run_actions acts w) = [(Uncategorized, []); ("Food", ["swiggy"])].
Proof.
  intros w acts.
  assert (Hok : store_ok w).
  { split; [|discriminate]. unfold well_formed. simpl.
    repeat constructor. intros []. }
  destruct (store_stays_in_step acts w Hok) as [H1 H2].
  split; [exact Hok|]. split; [exact H1|]. split; [exact H2 | reflexivity].
Defined.

(** X10: the first start of a session (lines 12-21 with no ["categories"]
    entry yet), when it goes through, leaves the session and the file in
    step and does not write the file; without a file the store is
    [{"Uncategorized": []}]. *)
Theorem first_start_sets_up_the_store :
  forall (w w' : world),
    startup true w = (Ok tt, w') ->
    store_ok w'
    /\ disk w' = disk w
    /\ (disk w = None -> categories w' = [(Uncategorized, [])]).
Proof.
  intros w w'. unfold startup, bind, put_categories, load_categories. simpl.
  destruct (disk w) as [text|] eqn:Hd.
  - destruct (Json.loads text) as [d|] eqn:Hl; [|discriminate].
    unfold put_categories. simpl. intros H. injection H as <-. simpl.
    repeat split.
    + destruct (loads_shape text d Hl) as [pairs ->].
      apply dict_of_pairs_keys_distinct.
    + simpl. intros t E. injection E as <-. exact Hl.
    + discriminate.
  - intros H. injection H as <-. simpl. repeat split.
    + unfold well_formed. simpl. repeat constructor. intros [].
    + discriminate.
Qed.

Lemma first_start_sets_up_the_store_witness :
  let w := mkWorld [] None in
  let w' := mkWorld [(Uncategorized, [])] None in
  startup true w = (Ok tt, w')
  /\ store_ok w' /\ disk w' = disk w
  /\ (disk w = None -> categories w' = [(Uncategorized, [])]).
Proof.
  intros w w'. split; [reflexivity|].
  exact (first_start_sets_up_the_store w w' eq_refl).
Defined.

Lemma grows_head (d d' : dict) (k : string) (v : list string) (rest : dict) :
  grows d d' -> d = (k, v) :: rest ->
  exists more rest', d' = (k, v ++ more) :: rest'.
Proof.
  intros [[m K] G] ->. simpl in K.
  destruct (G k v) as [more Hget]; [simpl; now rewrite String.eqb_refl|].
  destruct d' as [|[k' v'] rest']; [discriminate|].
  simpl in K. injection K as -> _. simpl in Hget. rewrite String.eqb_refl in Hget.
  injection Hget as ->. now exists more, rest'.
Qed.

(** X11: after a first start without a file, "Uncategorized" stays the
    first key of the store through any sequence of reruns, clicks,
    keyword additions and categorizations. *)
Theorem Uncategorized_stays_first :
  forall (w0 w : world) (acts : list action),
    disk w0 = None ->
    startup true w0 = (Ok tt, w) ->
    exists kws rest,
      categories (run_actions acts w) = (Uncategorized, kws) :: rest.
Proof.
  intros w0 w acts Hd Hstart.
  assert (Hw : w = mkWorld [(Uncategorized, [])] None).
  { unfold startup, bind, put_categories, load_categories in Hstart.
    simpl in Hstart. rewrite Hd in Hstart. now injection Hstart as <-. }
  assert (Hok : store_ok w).
  { subst w. split; [|discriminate]. unfold well_formed. simpl.
    repeat constructor. intros []. }
  assert (Hhead : exists kws rest, categories w = (Uncategorized, kws) :: rest)
    by (subst w; now exists [], []).
  clear Hw Hstart Hd w0. revert w Hok Hhead. unfold run_actions.
  induction acts as [|a acts IH]; intros w Hok Hhead; simpl; [exact Hhead|].
  destruct (run_action_keeps a w Hok) as [Hok' Hg].
  apply IH; [exact Hok'|].
  destruct Hhead as [kws [rest Hc]].
  destruct (grows_head _ _ _ _ _ Hg Hc) as [more [rest' H]].
  now exists (kws ++ more), rest'.
Qed.

Lemma Uncategorized_stays_first_witness :
  exists kws rest,
    categories
      (run_actions [AddKeyword Uncategorized "atm"; AddCategory true "Food"; Rerun]
         (mkWorld [(Uncategorized, [])] None))
    = (Uncategorized, kws) :: rest.
Proof.
  apply (Uncategorized_stays_first (mkWorld [] None)); reflexivity.
Defined.

(** ** The loader *)

Lemma clean_amounts_Ok (col : list cell) (fs : list pyfloat) :
  clean_amounts col = Ok fs
  <-> Forall2 (fun v f => clean_amount v = Ok f) col fs.
Proof.
  revert fs. induction col as [|v col IH]; intros fs; simpl.
  - split.
    + intros H. injection H as <-. constructor.
    + intros H. now inversion H.
  - destruct (clean_amount v) as [f|e] eqn:Ev.
    + destruct (clean_amounts col) as [fs'|e'] eqn:Ec.
      * split.
        -- intros H. injection H as <-. constructor; [exact Ev | now apply IH].
        -- intros H. inversion H as [|? g ? gs Hg Hrest]; subst.
           apply IH in Hrest. congruence.
      * split; [discriminate|].
        intros H. inversion H as [|? g ? gs Hg Hrest]; subst.
        apply IH in Hrest. discriminate.
    + split; [discriminate|].
      intros H. inversion H as [|? g ? gs Hg Hrest]; subst. congruence.
Qed.

Lemma clean_amounts_Raise (col : list cell) (e : exn) :
  clean_amounts col = Raise e
  <-> exists pre v post,
        col = pre ++ v :: post
        /\ clean_amount v = Raise e
        /\ Forall (fun u => exists f, clean_amount u = Ok f) pre.
Proof.
  induction col as [|v col IH]; simpl.
  - split; [discriminate|]. intros [[|? ?] [? [? [H _]]]]; discriminate.
  - split.
    + destruct (clean_amount v) as [f|e0] eqn:Ev.
      * destruct (clean_amounts col) as [fs'|e']; [discriminate|].
        intros H. injection H as ->.
        destruct (proj1 IH eq_refl) as [pre [x [post [-> [Hx Hpre]]]]].
        exists (v :: pre), x, post. repeat split; [exact Hx|].
        constructor; [now exists f | exact Hpre].
      * intros H. injection H as ->. exists [], v, col. repeat split; auto.
    + intros [[|u pre] [x [post [Hcol [Hx Hpre]]]]]; simpl in Hcol;
        injection Hcol as <- ->.
      * now rewrite Hx.
      * inversion Hpre as [|? ? [f Hf] Hpre']; subst. rewrite Hf.
        assert (H : clean_amounts (pre ++ x :: post) = Raise e)
          by (apply IH; now exists pre, x, post).
        now rewrite H.
Qed.

(** X12: an amount column converts as a whole or not at all: the result
    has one float per cell, each the clean-up of its cell, exactly when
    every cell cleans up; otherwise the exception is the one of the first
    cell that does not. *)
Theorem amount_column_all_or_nothing :
  forall col : list cell,
    (forall fs, clean_amounts col = Ok fs
                <-> Forall2 (fun v f => clean_amount v = Ok f) col fs)
    /\ (forall e, clean_amounts col = Raise e
                  <-> exists pre v post,
                        col = pre ++ v :: post
                        /\ clean_amount v = Raise e
                        /\ Forall (fun u => exists f, clean_amount u = Ok f) pre).
Proof.
  intros col. split.
  - intros fs. apply clean_amounts_Ok.
  - intros e. apply clean_amounts_Raise.
Qed.







Example load_transactions_example :
  load_transactions (fun v => match v with Text s => Some s | Missing => Some "NaT" end)
    [mkCsv (Text "01/04/23") "Netflix" (Text "500.00") Missing;
     mkCsv (Text "02/04/23") "Salary" (Text "") (Text "1,00,000.00")]
    (mkWorld [(Uncategorized, []); ("Entertainment", ["netflix"])] None)
  = (Ok (Some [mkRow "01/04/23" "Netflix" (Finite 500) (Finite 0) "Entertainment";
               mkRow "02/04/23" "Salary" (Finite 0) (Finite 100000) Uncategorized]),
     mkWorld [(Uncategorized, []); ("Entertainment", ["netflix"])] None).
Proof. vm_compute. reflexivity. Qed.

(** ** The two views *)

Lemma iterrows_from_In (df : frame) (start i : nat) (r : row) :
  In (i, r) (iterrows_from start df)
  <-> start <= i /\ nth_error df (i - start) = Some r.
Proof.
  revert start. induction df as [|a df IH]; intros start; simpl.
  - split; [contradiction|]. intros [_ H]. destruct (i - start); discriminate.
  - rewrite IH. split.
    + intros [H | [Hle H]].
      * injection H as <- <-. rewrite Nat.sub_diag. split; [lia | reflexivity].
      * split; [lia|]. replace (i - start) with (S (i - S start)) by lia. exact H.
    + intros [Hle H]. destruct (i - start) as [|n] eqn:E.
      * left. injection H as <-. f_equal. lia.
      * right. split; [lia|]. replace (i - S start) with n by lia. exact H.
Qed.

Lemma iterrows_from_labels (df : frame) (start : nat) :
  map fst (iterrows_from start df) = seq start (length df).
Proof.
  revert start. induction df as [|a df IH]; intros start; simpl; [reflexivity|].
  now rewrite IH.
Qed.

Lemma filter_labels_sorted (p : nat * row -> bool) (v : view) :
  StronglySorted lt (labels v) -> StronglySorted lt (labels (filter p v)).
Proof.
  unfold labels. induction v as [|[i r] v IH]; simpl; intros H; [constructor|].
  inversion H as [|? ? Hrest Hall]; subst.
  destruct (p (i, r)); simpl; [|now apply IH].
  constructor; [now apply IH|].
  rewrite Forall_forall in *. intros j Hj. apply Hall.
  apply in_map_iff in Hj. destruct Hj as [[j' r'] [<- Hin]].
  apply filter_In in Hin. apply in_map_iff. exists (j', r'). tauto.
Qed.

Lemma seq_sorted (start len : nat) : StronglySorted lt (seq start len).
Proof.
  revert start. induction len as [|len IH]; intros start; simpl; constructor.
  - apply IH.
  - apply Forall_forall. intros j Hj. apply in_seq in Hj. lia.
Qed.

Lemma sorted_labels_NoDup (l : list nat) : StronglySorted lt l -> NoDup l.
Proof.
  induction 1 as [|a l _ IH Hall]; constructor; [|exact IH].
  intros Hin. rewrite Forall_forall in Hall. specialize (Hall a Hin). lia.
Qed.

(** X14: the debit view and the credit view hold exactly the rows of the
    table whose amount in the view's column is above zero (a zero, a
    negative or a missing amount is left out), each under the position it
    has in the table, in the table's order and once. *)
Theorem views_keep_positive_rows :
  forall (col : row -> pyfloat) (df : frame),
    let v := positive_rows col df in
    StronglySorted lt (labels v)
    /\ NoDup (labels v)
    /\ (forall i r, In (i, r) v
                    <-> nth_error df i = Some r /\ gt0 (col r) = true)
    /\ (forall i r q, In (i, r) v -> col r = Finite q -> (0 < q)%Q)
    /\ (forall i r, In (i, r) v -> col r <> NaN /\ col r <> Inf true).
Proof.
  intros col df v.
  assert (Hs : StronglySorted lt (labels v)).
  { apply filter_labels_sorted. unfold labels, iterrows.
    rewrite iterrows_from_labels. apply seq_sorted. }
  assert (Hin : forall i r, In (i, r) v
                  <-> nth_error df i = Some r /\ gt0 (col r) = true).
  { intros i r. unfold v, positive_rows, iterrows.
    rewrite filter_In, iterrows_from_In, Nat.sub_0_r. simpl.
    split; [tauto|]. intros [H1 H2]. repeat split; [lia | exact H1 | exact H2]. }
  split; [exact Hs|]. split; [now apply sorted_labels_NoDup|].
  split; [exact Hin|]. split.
  - intros i r q H Hq. apply Hin in H. destruct H as [_ H].
    rewrite Hq in H. simpl in H. apply negb_true_iff in H.
    destruct (Qlt_le_dec 0 q) as [Hlt | Hle]; [exact Hlt|].
    apply Qle_bool_iff in Hle. congruence.
  - intros i r H. apply Hin in H. destruct H as [_ H].
    split; intros E; rewrite E in H; discriminate.
Qed.

(** ** The "Apply Changes" button *)

Lemma at_get_labels (v : view) (idx : nat) :
  In idx (labels v) <-> exists c, at_get_Category v idx = Some c.
Proof.
  unfold labels. induction v as [|[i r] v IH]; simpl.
  - split; [contradiction | intros [c H]; discriminate].
  - destruct (Nat.eqb i idx) eqn:E.
    + apply Nat.eqb_eq in E. split; [now exists (Category r) | now left].
    + apply Nat.eqb_neq in E. rewrite <- IH. tauto.
Qed.

Lemma labels_view_set (v : view) (idx : nat) (c : string) :
  labels (view_set_Category v idx c) = labels v.
Proof.
  unfold labels. induction v as [|[i r] v IH]; simpl; [reflexivity|].
  destruct (Nat.eqb i idx); simpl; now rewrite IH.
Qed.

Lemma bare_view_set (v : view) (idx : nat) (c : string) :
  map bare (view_set_Category v idx c) = map bare v.
Proof.
  induction v as [|[i r] v IH]; simpl; [reflexivity|].
  destruct (Nat.eqb i idx); simpl; now rewrite IH.
Qed.

Lemma at_get_view_set_same (v : view) (idx : nat) (c : string) :
  In idx (labels v) -> at_get_Category (view_set_Category v idx c) idx = Some c.
Proof.
  unfold labels. induction v as [|[i r] v IH]; simpl; [contradiction|].
  destruct (Nat.eqb i idx) eqn:E; simpl; rewrite E; [reflexivity|].
  apply Nat.eqb_neq in E. intros [H | H]; [contradiction | now apply IH].
Qed.

Lemma at_get_view_set_other (v : view) (idx j : nat) (c : string) :
  j <> idx -> at_get_Category (view_set_Category v idx c) j = at_get_Category v j.
Proof.
  intros Hne. induction v as [|[i r] v IH]; simpl; [reflexivity|].
  destruct (Nat.eqb i idx) eqn:E; simpl.
  - apply Nat.eqb_eq in E. subst i.
    assert (Nat.eqb idx j = false) as -> by (apply Nat.eqb_neq; congruence).
    exact IH.
  - destruct (Nat.eqb i j); [reflexivity | exact IH].
Qed.

(** X15: "Apply Changes" with nothing changed does nothing: when every
    row of the edited table carries the category the session's view has
    under the same label, the view, the store and the file stay as they
    are and nothing is raised. *)
Theorem apply_without_changes_is_idle :
  forall (edited_df session_df : view) (w : world),
    (forall idx r, In (idx, r) edited_df ->
                   at_get_Category session_df idx = Some (Category r)) ->
    apply_changes edited_df session_df w = (Ok tt, session_df, w).
Proof.
  intros edited_df session_df w.
  induction edited_df as [|[idx r] rest IH]; intros H; simpl; [reflexivity|].
  rewrite (H idx r (or_introl eq_refl)), String.eqb_refl.
  apply IH. intros j r' Hin. apply H. now right.
Qed.

Lemma apply_without_changes_is_idle_witness :
  let df := [mkRow "01/04/23" "Netflix" (Finite 500) (Finite 0) "Fun";
             mkRow "02/04/23" "Salary" (Finite 0) (Finite 9000) "Income";
             mkRow "03/04/23" "Uber" (Finite 120) (Finite 0) "Travel"] in
  let w := mkWorld [(Uncategorized, [])] None in
  apply_changes (debits_df df) (debits_df df) w = (Ok tt, debits_df df, w).
Proof.
  intros df w. apply (apply_without_changes_is_idle (debits_df df) (debits_df df) w).
  intros idx r. vm_compute.
  intros [H | [H | []]]; injection H as <- <-; reflexivity.
Defined.

Lemma add_keyword_known (w : world) (c k : string) :
  dict_mem (categories w) c = true ->
  exists b w',
    add_keyword_to_category c k w = (Ok b, w')
    /\ keys (categories w') = keys (categories w)
    /\ grows (categories w) (categories w')
    /\ (store_ok w -> store_ok w')
    /\ (PyStr.strip k <> "" ->
        exists kws, dict_get (categories w') c = Some kws /\ In (PyStr.strip k) kws).
Proof.
  unfold dict_mem. destruct (dict_get (categories w) c) as [kws|] eqn:Hg;
    [intros _ | discriminate].
  unfold add_keyword_to_category.
  destruct (PyStr.truthy (PyStr.strip k)) eqn:Ht.
  - unfold bind, get_categories. rewrite Hg.
    destruct (PyStr.contains kws (PyStr.strip k)) eqn:Ec; simpl.
    + exists false, w.
      split; [reflexivity|]. split; [reflexivity|].
      split; [apply grows_refl|]. split; [auto|].
      intros _. exists kws. split; [exact Hg | now apply contains_In].
    + eexists true, _. split; [reflexivity|]. simpl.
      split; [now apply dict_set_present with (v0 := kws)|].
      split; [now apply grows_new_keyword|].
      split; [intros [Hwf _]; now apply store_ok_saved, dict_set_well_formed|].
      intros _. exists (kws ++ [PyStr.strip k]).
      split; [apply dict_get_set_same | apply in_or_app; right; now left].
  - exists false, w.
    split; [reflexivity|]. split; [reflexivity|].
    split; [apply grows_refl|]. split; [auto|].
    intros Hk. apply truthy_iff in Hk. congruence.
Qed.

Lemma grows_keeps_keyword (d d' : dict) (c k : string) :
  grows d d' ->
  (exists kws, dict_get d c = Some kws /\ In k kws) ->
  exists kws, dict_get d' c = Some kws /\ In k kws.
Proof.
  intros [_ G] [kws [Hg Hin]]. destruct (G c kws Hg) as [more Hm].
  exists (kws ++ more). split; [exact Hm | apply in_or_app; now left].
Qed.

Lemma dict_mem_keys (d : dict) (c : string) :
  dict_mem d c = true <-> In c (keys d).
Proof.
  unfold dict_mem. destruct (dict_get d c) eqn:E.
  - split; [|reflexivity]. intros _.
    destruct (in_dec string_dec c (keys d)) as [H | H]; [exact H|].
    apply dict_get_None in H. congruence.
  - apply dict_get_None in E. split; [discriminate | contradiction].
Qed.

Lemma In_labels (v : view) (idx : nat) (r : row) : In (idx, r) v -> In idx (labels v).
Proof. intros H. unfold labels. apply in_map_iff. now exists (idx, r). Qed.

(** X16: "Apply Changes" with categories of the store.  When the edited
    table has each label once, only labels of the session's view, and
    only categories that are keys of the store, the loop raises nothing;
    afterwards the view has the edited category under every edited label
    and is otherwise as before (same rows, same order, other labels
    untouched); the store has the same keys and only longer keyword lists,
    stays in step with the file, and for every row whose category was
    changed and whose narration is not blank, the trimmed narration is now
    a keyword of the new category. *)
Theorem apply_changes_applies_and_learns :
  forall (edited_df session_df : view) (w : world),
    NoDup (labels edited_df) ->
    (forall idx, In idx (labels edited_df) -> In idx (labels session_df)) ->
    (forall idx r, In (idx, r) edited_df ->
                   dict_mem (categories w) (Category r) = true) ->
    exists session_df' w',
      apply_changes edited_df session_df w = (Ok tt, session_df', w')
      /\ map bare session_df' = map bare session_df
      /\ (forall idx r, In (idx, r) edited_df ->
            at_get_Category session_df' idx = Some (Category r))
      /\ (forall idx, ~ In idx (labels edited_df) ->
            at_get_Category session_df' idx = at_get_Category session_df idx)
      /\ keys (categories w') = keys (categories w)
      /\ grows (categories w) (categories w')
      /\ (store_ok w -> store_ok w')
      /\ (forall idx r, In (idx, r) edited_df ->
            at_get_Category session_df idx <> Some (Category r) ->
            PyStr.strip (Narration r) <> "" ->
            exists kws, dict_get (categories w') (Category r) = Some kws
                        /\ In (PyStr.strip (Narration r)) kws).
Proof.
  intros edited_df.
  induction edited_df as [|[idx r] rest IH]; intros session_df w Hnd Hlab Hmem.
  - exists session_df, w. simpl.
    split; [reflexivity|]. split; [reflexivity|].
    split; [intros ? ? []|]. split; [reflexivity|]. split; [reflexivity|].
    split; [apply grows_refl|]. split; [auto | intros ? ? []].
  - simpl in Hnd. inversion Hnd as [|? ? Hfresh Hnd']; subst.
    assert (Hhere : exists cur, at_get_Category session_df idx = Some cur)
      by (apply at_get_labels, Hlab; now left).
    destruct Hhere as [cur Hcur].
    simpl apply_changes. rewrite Hcur.
    destruct (String.eqb (Category r) cur) eqn:E.
    + apply String.eqb_eq in E.
      destruct (IH session_df w Hnd') as [s' [w' [Hrun [Hbare [Hset [Hother [Hk [Hg [Hok Hlearn]]]]]]]]].
      { intros j Hj. apply Hlab. now right. }
      { intros j r' Hj. apply (Hmem j r'). now right. }
      exists s', w'. split; [exact Hrun|]. split; [exact Hbare|].
      split; [|split; [|split; [exact Hk | split; [exact Hg | split; [exact Hok|]]]]].
      * intros j r' [Hj | Hj].
        -- injection Hj as <- <-. rewrite (Hother idx Hfresh), Hcur. now rewrite E.
        -- now apply Hset.
      * intros j Hj. apply Hother. intros Hin. apply Hj. now right.
      * intros j r' [Hj | Hj] Hne Hblank.
        -- injection Hj as <- <-. rewrite Hcur, E in Hne. congruence.
        -- now apply (Hlearn j r').
    + destruct (add_keyword_known w (Category r) (Narration r)
                  (Hmem idx r (or_introl eq_refl)))
        as [b [w1 [Hadd [Hk1 [Hg1 [Hok1 Hlearn1]]]]]].
      rewrite Hadd.
      destruct (IH (view_set_Category session_df idx (Category r)) w1 Hnd')
        as [s' [w' [Hrun [Hbare [Hset [Hother [Hk [Hg [Hok Hlearn]]]]]]]]].
      { intros j Hj. rewrite labels_view_set. apply Hlab. now right. }
      { intros j r' Hj. apply dict_mem_keys. rewrite Hk1. apply dict_mem_keys.
        apply (Hmem j r'). now right. }
      exists s', w'. split; [exact Hrun|].
      split; [now rewrite Hbare, bare_view_set|].
      split; [|split; [|split; [congruence | split;
        [exact (grows_trans _ _ _ Hg1 Hg) | split; [auto|]]]]].
      * intros j r' [Hj | Hj].
        -- injection Hj as <- <-. rewrite (Hother idx Hfresh).
           apply at_get_view_set_same, Hlab. now left.
        -- now apply Hset.
      * intros j Hj. rewrite Hother by (intros Hin; apply Hj; now right).
        apply at_get_view_set_other. intros ->. apply Hj. now left.
      * intros j r' [Hj | Hj] Hne Hblank.
        -- injection Hj as <- <-.
           exact (grows_keeps_keyword _ _ _ _ Hg (Hlearn1 Hblank)).
        -- apply (Hlearn j r' Hj); [|exact Hblank].
           rewrite at_get_view_set_other; [exact Hne|].
           intros ->. apply Hfresh. exact (In_labels _ _ _ Hj).
Qed.

Lemma apply_changes_applies_and_learns_witness :
  let df := [mkRow "01/04/23" "Netflix" (Finite 500) (Finite 0) Uncategorized;
             mkRow "02/04/23" "Salary" (Finite 0) (Finite 9000) Uncategorized;
             mkRow "03/04/23" " Uber Trip" (Finite 120) (Finite 0) Uncategorized] in
  let edited := [(0, mkRow "01/04/23" "Netflix" (Finite 500) (Finite 0) "Fun");
                 (2, mkRow "03/04/23" " Uber Trip" (Finite 120) (Finite 0) Uncategorized)] in
  let w := mkWorld [(Uncategorized, []); ("Fun", [])] None in
  exists session_df' w',
    apply_changes edited (debits_df df) w = (Ok tt, session_df', w')
    /\ at_get_Category session_df' 0 = Some "Fun"
    /\ at_get_Category session_df' 2 = Some Uncategorized
    /\ categories w' = [(Uncategorized, []); ("Fun", ["Netflix"])].
Proof.
  intros df edited w.
  destruct (apply_changes_applies_and_learns edited (debits_df df) w)
    as [s' [w' [Hrun [_ [Hset _]]]]].
  - simpl. repeat constructor; simpl; intuition discriminate.
  - vm_compute. tauto.
  - intros idx r [H | [H | []]]; injection H as <- <-; reflexivity.
  - exists s', w'. split; [exact Hrun|].
    split; [apply (Hset 0 _ (or_introl eq_refl))|].
    split; [apply (Hset 2 _ (or_intror (or_introl eq_refl)))|].
    vm_compute in Hrun. now injection Hrun as _ <-.
Defined.




(** ** The summaries of the views *)

Lemma summary_keys (col : row -> pyfloat) (df : frame) (c : string) :
  In c (map fst (category_totals col df)) <-> In c (map Category df).
Proof.
  unfold category_totals. rewrite <- (groupby_sum_keys col df c).
  split; apply Permutation_in; apply Permutation_map.
  - apply sort_values_desc_perm.
  - apply Permutation_sym, sort_values_desc_perm.
Qed.

(** X18: the summary of a freshly categorized table names known
    categories only: each line is "Uncategorized" or a key of the store
    the table was categorized with. *)
Theorem summary_lines_are_known_categories :
  forall (w : world) (df : frame) (col : row -> pyfloat),
  exists df',
    categorize_transactions df w = (Ok df', w)
    /\ forall c total,
         In (c, total) (category_totals col df') ->
         c = Uncategorized \/ In c (keys (categories w)).
Proof.
  intros w df col. eexists. split; [apply categorize_transactions_run|].
  intros c total Hin.
  assert (Hc : In c (map fst (category_totals col
                 (map (fun r => set_Category r (relabel (categories w) r Uncategorized))
                      df))))
    by (apply in_map_iff; now exists (c, total)).
  apply summary_keys in Hc. rewrite map_map in Hc. simpl in Hc.
  apply in_map_iff in Hc. destruct Hc as [r [<- _]].
  destruct (relabel_cases (categories w) r Uncategorized)
    as [Heq | [item [Hitem [_ Heq]]]]; rewrite Heq.
  - now left.
  - right. unfold keys. now apply in_map.
Qed.

Lemma gt0_finite (q : Q) : gt0 (Finite q) = true <-> (0 < q)%Q.
Proof.
  simpl. rewrite negb_true_iff. split.
  - intros H. destruct (Qlt_le_dec 0 q) as [Hlt | Hle]; [exact Hlt|].
    apply Qle_bool_iff in Hle. congruence.
  - intros H. destruct (Qle_bool q 0) eqn:E; [|reflexivity].
    apply Qle_bool_iff in E. lra.
Qed.

Lemma nanadd_positive (a b : pyfloat) :
  running a -> gt0 b = true -> gt0 (nanadd a b) = true.
Proof.
  intros Ha Hb. destruct b as [y|[]|]; try discriminate.
  - apply gt0_finite in Hb. destruct Ha as [-> | Ha].
    + simpl nanadd. apply gt0_finite. rewrite Qred_correct. lra.
    + destruct a as [x|[]|]; try discriminate; [|reflexivity].
      apply gt0_finite in Ha. simpl nanadd. apply gt0_finite.
      rewrite Qred_correct. lra.
  - destruct Ha as [-> | Ha]; [reflexivity|].
    destruct a as [x|[]|]; try discriminate; reflexivity.
Qed.

Lemma sum_positive (vals : list pyfloat) (a : pyfloat) :
  running a -> Forall (fun v => gt0 v = true) vals -> vals <> [] ->
  gt0 (fold_left nanadd vals a) = true.
Proof.
  revert a. induction vals as [|v vals IH]; intros a Ha Hall Hne; [congruence|].
  inversion Hall as [|? ? Hv Hrest]; subst. simpl.
  assert (Hstep := nanadd_positive a v Ha Hv).
  destruct vals as [|v' vals']; [exact Hstep|].
  apply IH; [now right | exact Hrest | discriminate].
Qed.

Lemma summary_line_total (col : row -> pyfloat) (df : frame) (c : string)
  (total : pyfloat) :
  In (c, total) (category_totals col df) ->
  group_values col c df <> []
  /\ total = fold_left nanadd (group_values col c df) (Finite 0).
Proof.
  unfold category_totals. intros Hin.
  apply (Permutation_in _ (sort_values_desc_perm (groupby_sum col df))) in Hin.
  assert (Hnd : NoDup (map fst (groupby_sum col df)))
    by apply keys_sorted_NoDup, groupby_sum_sorted.
  assert (Htot := total_of_In _ _ _ Hnd Hin).
  unfold groupby_sum in Htot.
  rewrite total_of_fold in Htot by constructor. simpl total_of in Htot.
  destruct (group_values col c df); [discriminate|].
  injection Htot as <-. split; [discriminate | reflexivity].
Qed.

(** X19: each line of the summary of a view (the expense summary over the
    debit view, the credit summary over the credit view) stands for at
    least one row of the table with that category and an amount above
    zero, and its total is above zero. *)
Theorem view_summary_totals_are_positive :
  forall (col : row -> pyfloat) (df : frame) (c : string) (total : pyfloat),
    In (c, total) (category_totals col (map snd (positive_rows col df))) ->
    gt0 total = true
    /\ exists i r, nth_error df i = Some r /\ Category r = c
                   /\ gt0 (col r) = true.
Proof.
  intros col df c total Hin.
  destruct (summary_line_total _ _ _ _ Hin) as [Hne ->].
  assert (Hrows : forall r, In r (map snd (positive_rows col df)) ->
                    exists i, nth_error df i = Some r /\ gt0 (col r) = true).
  { intros r Hr. apply in_map_iff in Hr. destruct Hr as [[i r'] [<- Hr]].
    exists i. unfold positive_rows, iterrows in Hr.
    rewrite filter_In, iterrows_from_In, Nat.sub_0_r in Hr. simpl in *. tauto. }
  split.
  - apply sum_positive; [now left | | exact Hne].
    unfold group_values. apply Forall_forall. intros v Hv.
    apply in_map_iff in Hv. destruct Hv as [r [<- Hr]].
    apply filter_In in Hr. destruct (Hrows r (proj1 Hr)) as [_ [_ H]]. exact H.
  - unfold group_values in Hne.
    destruct (filter (in_group c) (map snd (positive_rows col df))) as [|r l] eqn:E;
      [contradiction|].
    assert (Hr : In r (filter (in_group c) (map snd (positive_rows col df))))
      by (rewrite E; now left).
    apply filter_In in Hr. destruct Hr as [Hr Hc].
    destruct (Hrows r Hr) as [i [Hi Hg]].
    exists i, r. repeat split; auto. unfold in_group in Hc.
    now apply String.eqb_eq in Hc.
Qed.

Lemma view_summary_totals_are_positive_witness :
  gt0 (Finite 620) = true
  /\ exists i r,
       nth_error [mkRow "01/04/23" "Netflix" (Finite 500) (Finite 0) "Fun";
                  mkRow "02/04/23" "Salary" (Finite 0) (Finite 9000) "Income";
                  mkRow "03/04/23" "Uber" (Finite 120) (Finite 0) "Fun"] i = Some r
       /\ Category r = "Fun" /\ gt0 (Withdrawal_Amt r) = true.
Proof.
  apply (view_summary_totals_are_positive Withdrawal_Amt
           [mkRow "01/04/23" "Netflix" (Finite 500) (Finite 0) "Fun";
            mkRow "02/04/23" "Salary" (Finite 0) (Finite 9000) "Income";
            mkRow "03/04/23" "Uber" (Finite 120) (Finite 0) "Fun"]
           "Fun" (Finite 620)).
  vm_compute. now left.
Defined.

(** ** Whole amounts *)















